(** * Flow correlation and timeline synthesis of the forensic engine

    A shallow embedding of [services/forensic-engine/main.py]: the record
    normalizer, the flow key canonicalizer, the streaming session
    aggregator, the rule engine, the timeline builder and the artifact
    assembler of [analyze_pcap], followed by the properties of the
    engine's design document.

    Conventions of the embedding.
    - A Python [int] is a [Z]; an [Optional] value is an [option].
    - A Python [float] timestamp is an exact rational in canonical form
      ([Qc]), so that equal instants are identical values; rounding and the
      non-finite floats are outside the model.
    - A [str] is a [string] of bytes; the comparison of strings is the
      lexicographic one on code units.
    - A [dict] whose iteration order is observable (the session table, the
      protocol-chain histogram) is an association list in insertion order,
      updated in place.
    - The built-ins [int()], [float()] and [hashlib.sha1] are parameters of
      the development: every theorem holds for whatever they compute. *)

From Stdlib Require Import ZArith QArith Qcanon String Ascii List Bool Lia.
From Stdlib Require Import Permutation Sorted DecimalString.
Import ListNotations.

Open Scope string_scope.
Open Scope Z_scope.

(** ** Python built-ins used by the engine *)

(** [x or y] on optional strings: [x] when it is a non-empty string. *)
Definition py_or (x y : option string) : option string :=
  match x with
  | Some s => if String.eqb s "" then y else x
  | None => y
  end.

(** [(x or "")] : the final default of an [or] chain. *)
Definition or_empty (x : option string) : string :=
  match x with
  | Some s => s
  | None => ""
  end.

(** The characters [str.strip()] removes from a byte string. *)
Definition is_space (c : ascii) : bool :=
  let n := nat_of_ascii c in
  ((9 <=? n)%nat && (n <=? 13)%nat) || ((28 <=? n)%nat && (n <=? 32)%nat).

Fixpoint lstrip (s : string) : string :=
  match s with
  | String c s' => if is_space c then lstrip s' else s
  | EmptyString => EmptyString
  end.

Fixpoint rstrip (s : string) : string :=
  match s with
  | String c s' =>
      match rstrip s' with
      | EmptyString => if is_space c then EmptyString else String c EmptyString
      | r => String c r
      end
  | EmptyString => EmptyString
  end.

Definition strip (s : string) : string := rstrip (lstrip s).

(** [str(n)] for an integer. *)
Definition str_int (n : Z) : string := NilZero.string_of_int (Z.to_int n).

(** [min(a, b)] and [max(a, b)] return their first argument unless the
    second is strictly better. *)
Definition min_int (a b : Z) : Z := if b <? a then b else a.
Definition max_int (a b : Z) : Z := if a <? b then b else a.

Definition Qc_ltb (a b : Qc) : bool := negb (Qle_bool b a).
Definition Qc_leb (a b : Qc) : bool := Qle_bool a b.

Definition min_ts (a b : Qc) : Qc := if Qc_ltb b a then b else a.
Definition max_ts (a b : Qc) : Qc := if Qc_ltb a b then b else a.

(** [sorted(l, key=...)]: the stable sort, which only ever asks whether one
    key is strictly less than another.  An element is placed before the
    first element that is not strictly less than it, so elements with equal
    keys keep their order. *)
Section Sorted.
Context {A : Type} (lt : A -> A -> bool).

Fixpoint insert_sorted (x : A) (l : list A) : list A :=
  match l with
  | [] => [x]
  | y :: l' => if lt y x then y :: insert_sorted x l' else x :: y :: l'
  end.

Fixpoint sorted (l : list A) : list A :=
  match l with
  | [] => []
  | x :: l' => insert_sorted x (sorted l')
  end.
End Sorted.

(** ** Flow key canonicalizer *)

Inductive Transport := tcp | udp | other.

Definition transport_str (t : Transport) : string :=
  match t with
  | tcp => "tcp"
  | udp => "udp"
  | other => "other"
  end.

(** The dictionary [{"ip": ..., "port": ...}]. *)
Record Endpoint := mkEndpoint { ip : string; port : option Z }.

Definition _canonical_endpoint (ip : string) (port : option Z) : string * Z :=
  (ip, match port with None => -1 | Some p => p end).

(** [a <= b] on tuples [(str, int)]: the first components decide unless they
    are equal. *)
Definition tuple_le (a b : string * Z) : bool :=
  if String.eqb (fst a) (fst b) then snd a <=? snd b
  else String.leb (fst a) (fst b).

Definition _canonical_pair (src_ip : string) (src_port : option Z)
    (dst_ip : string) (dst_port : option Z) : Endpoint * Endpoint :=
  let a := _canonical_endpoint src_ip src_port in
  let b := _canonical_endpoint dst_ip dst_port in
  if tuple_le a b then
    (mkEndpoint src_ip src_port, mkEndpoint dst_ip dst_port)
  else
    (mkEndpoint dst_ip dst_port, mkEndpoint src_ip src_port).

(** The formatting of a port inside an f-string: [None] or the decimal. *)
Definition str_port (p : option Z) : string :=
  match p with
  | None => "None"
  | Some n => str_int n
  end.

(** [f"{transport}:{a['ip']}:{a['port']}->{b['ip']}:{b['port']}"] *)
Definition session_key_of (transport : Transport) (a b : Endpoint) : string :=
  transport_str transport ++ ":" ++ ip a ++ ":" ++ str_port (port a)
    ++ "->" ++ ip b ++ ":" ++ str_port (port b).

(** ** Data model *)

(** One row of the dissection output: the [csv.DictReader] dictionary from
    column names to cell texts, as an association list. *)
Definition Row := list (string * string).

(** [row.get(name)] *)
Fixpoint get (row : Row) (name : string) : option string :=
  match row with
  | [] => None
  | (k, v) :: row' => if String.eqb k name then Some v else get row' name
  end.

Inductive Kind := dns_query | http_request | tls_sni_kind.

Definition kind_str (k : Kind) : string :=
  match k with
  | dns_query => "dns_query"
  | http_request => "http_request"
  | tls_sni_kind => "tls_sni"
  end.

Module TimelineEvent.
Record t := mk {
  ts : Qc;
  session_id : string;
  kind : Kind;
  summary : string;
  evidence_frame : Z
}.
End TimelineEvent.

Inductive RuleFlag := many_packets | long_duration | large_bytes | non_tcp_udp.

Definition flag_str (f : RuleFlag) : string :=
  match f with
  | many_packets => "many_packets"
  | long_duration => "long_duration"
  | large_bytes => "large_bytes"
  | non_tcp_udp => "non_tcp_udp"
  end.

Module Evidence.
Record t := mk {
  first_frame : Z;
  last_frame : Z;
  sample_frames : list Z
}.
End Evidence.

Module DnsQuery.
Record t := mk { name : string; ts : Qc; evidence_frame : Z }.
End DnsQuery.

Module HttpRequest.
Record t := mk {
  method : string;
  host : option string;
  uri : option string;
  ts : Qc;
  evidence_frame : Z
}.
End HttpRequest.

Module TlsSni.
Record t := mk { server_name : string; ts : Qc; evidence_frame : Z }.
End TlsSni.

Module Observations.
Record t := mk {
  dns_queries : list DnsQuery.t;
  http_requests : list HttpRequest.t;
  tls_sni : list TlsSni.t
}.
End Observations.

Module Session.
Record t := mk {
  id : string;
  transport : Transport;
  endpoints : Endpoint * Endpoint;
  first_ts : Qc;
  last_ts : Qc;
  packet_count : Z;
  byte_count : Z;
  protocol_chains : list (string * Z);
  evidence : Evidence.t;
  observations : Observations.t;
  rule_flags : list RuleFlag;
  (* the key [duration_seconds] exists only once the session is finalized *)
  duration_seconds : option Qc
}.
End Session.

(** An insertion-ordered dictionary with string keys. *)
Section Dict.
Context {V : Type}.

Fixpoint dict_get (d : list (string * V)) (k : string) : option V :=
  match d with
  | [] => None
  | (k', v) :: d' => if String.eqb k' k then Some v else dict_get d' k
  end.

(** [d[k] = v]: in place when the key exists, at the end otherwise. *)
Fixpoint dict_set (d : list (string * V)) (k : string) (v : V)
    : list (string * V) :=
  match d with
  | [] => [(k, v)]
  | (k', v') :: d' =>
      if String.eqb k' k then (k', v) :: d' else (k', v') :: dict_set d' k v
  end.

Definition dict_values (d : list (string * V)) : list V := map snd d.
End Dict.

(** The variables of the reading loop of [analyze_pcap]. *)
Module State.
Record t := mk {
  sessions : list (string * Session.t);
  events : list TimelineEvent.t;
  packet_count : Z;
  first_ts : option Qc;
  last_ts : option Qc
}.
End State.

Definition initial_state : State.t := State.mk [] [] 0 None None.

(** ** Session updates of the reading loop *)

(** The dictionary literal stored for a flow key seen for the first time. *)
Definition new_session (session_id : string) (transport : Transport)
    (a b : Endpoint) (ts : Qc) (frame_no : Z) : Session.t :=
  Session.mk session_id transport (a, b) ts ts 0 0 []
    (Evidence.mk frame_no frame_no [])
    (Observations.mk [] [] [])
    [] None.

(** Counters, time bounds, frame bounds and the bounded sample. *)
Definition count_packet (sample_frames_per_session : Z) (s : Session.t)
    (frame_no : Z) (ts : Qc) (frame_len : option Z) : Session.t :=
  let ev := Session.evidence s in
  let sample := Evidence.sample_frames ev in
  Session.mk (Session.id s) (Session.transport s) (Session.endpoints s)
    (min_ts (Session.first_ts s) ts)
    (max_ts (Session.last_ts s) ts)
    (Session.packet_count s + 1)
    (Session.byte_count s + match frame_len with None => 0 | Some n => n end)
    (Session.protocol_chains s)
    (Evidence.mk
       (min_int (Evidence.first_frame ev) frame_no)
       (max_int (Evidence.last_frame ev) frame_no)
       (if Z.of_nat (length sample) <? sample_frames_per_session
        then (sample ++ [frame_no])%list else sample))
    (Session.observations s) (Session.rule_flags s)
    (Session.duration_seconds s).

(** [chains[chain] = chains.get(chain, 0) + 1] *)
Definition count_chain (s : Session.t) (chain : string) : Session.t :=
  let chains := Session.protocol_chains s in
  let n := match dict_get chains chain with Some n => n | None => 0 end in
  Session.mk (Session.id s) (Session.transport s) (Session.endpoints s)
    (Session.first_ts s) (Session.last_ts s) (Session.packet_count s)
    (Session.byte_count s) (dict_set chains chain (n + 1))
    (Session.evidence s) (Session.observations s) (Session.rule_flags s)
    (Session.duration_seconds s).

Definition with_observations (s : Session.t) (o : Observations.t)
    : Session.t :=
  Session.mk (Session.id s) (Session.transport s) (Session.endpoints s)
    (Session.first_ts s) (Session.last_ts s) (Session.packet_count s)
    (Session.byte_count s) (Session.protocol_chains s) (Session.evidence s)
    o (Session.rule_flags s) (Session.duration_seconds s).

Definition add_dns_query (s : Session.t) (q : DnsQuery.t) : Session.t :=
  let o := Session.observations s in
  with_observations s
    (Observations.mk (Observations.dns_queries o ++ [q])%list
       (Observations.http_requests o) (Observations.tls_sni o)).

Definition add_http_request (s : Session.t) (r : HttpRequest.t) : Session.t :=
  let o := Session.observations s in
  with_observations s
    (Observations.mk (Observations.dns_queries o)
       (Observations.http_requests o ++ [r])%list (Observations.tls_sni o)).

Definition add_tls_sni (s : Session.t) (x : TlsSni.t) : Session.t :=
  let o := Session.observations s in
  with_observations s
    (Observations.mk (Observations.dns_queries o)
       (Observations.http_requests o) (Observations.tls_sni o ++ [x])%list).

(** A string is true when it is not empty; [x or None] on a string. *)
Definition truthy (s : string) : bool := negb (String.eqb s "").
Definition or_None (s : string) : option string :=
  if truthy s then Some s else None.

(** ** The reading loop *)

Section Engine.
(** [int(text)] and [float(text)], [None] standing for [ValueError]. *)
Variable py_int : string -> option Z.
Variable py_float : string -> option Qc.
(** [hashlib.sha1(text.encode("utf-8")).hexdigest()] *)
Variable sha1_hexdigest : string -> string.
(** The keyword argument of [analyze_pcap]. *)
Variable sample_frames_per_session : Z.

Definition _safe_int (value : option string) : option Z :=
  match value with
  | None => None
  | Some value =>
      let value := strip value in
      if String.eqb value "" then None else py_int value
  end.

Definition _safe_float (value : option string) : option Qc :=
  match value with
  | None => None
  | Some value =>
      let value := strip value in
      if String.eqb value "" then None else py_float value
  end.

(** [(row.get(first) or row.get(second) or "").strip()] *)
Definition address (row : Row) (first second : string) : string :=
  strip (or_empty (py_or (get row first) (get row second))).

(** [(row.get(name) or "").strip()] *)
Definition text (row : Row) (name : string) : string :=
  strip (or_empty (get row name)).

Definition is_some {A} (x : option A) : bool :=
  match x with Some _ => true | None => false end.

(** Transport and ports of a row: TCP ports win over UDP ports. *)
Definition transport_of (tcp_src tcp_dst udp_src udp_dst : option Z)
    : Transport * option Z * option Z :=
  if is_some tcp_src || is_some tcp_dst then (tcp, tcp_src, tcp_dst)
  else if is_some udp_src || is_some udp_dst then (udp, udp_src, udp_dst)
  else (other, None, None).

(** [hashlib.sha1(...).hexdigest()[:12]] *)
Definition session_id_of (session_key : string) : string :=
  substring 0 12 (sha1_hexdigest session_key).

(** The body of [for row in reader]. *)
Definition loop_body (st : State.t) (row : Row) : State.t :=
  let sessions := State.sessions st in
  let events := State.events st in
  let packet_count := State.packet_count st + 1 in
  let frame_no := _safe_int (get row "frame.number") in
  let ts := _safe_float (get row "frame.time_epoch") in
  let frame_len := _safe_int (get row "frame.len") in
  match frame_no, ts with
  | Some frame_no, Some ts =>
      let first_ts :=
        match State.first_ts st with
        | None => ts
        | Some first_ts => min_ts first_ts ts
        end in
      let last_ts :=
        match State.last_ts st with
        | None => ts
        | Some last_ts => max_ts last_ts ts
        end in
      let src_ip := address row "ip.src" "ipv6.src" in
      let dst_ip := address row "ip.dst" "ipv6.dst" in
      if negb (truthy src_ip) || negb (truthy dst_ip) then
        State.mk sessions events packet_count (Some first_ts) (Some last_ts)
      else
        let tcp_src := _safe_int (get row "tcp.srcport") in
        let tcp_dst := _safe_int (get row "tcp.dstport") in
        let udp_src := _safe_int (get row "udp.srcport") in
        let udp_dst := _safe_int (get row "udp.dstport") in
        let '(transport, src_port, dst_port) :=
          transport_of tcp_src tcp_dst udp_src udp_dst in
        let '(a, b) := _canonical_pair src_ip src_port dst_ip dst_port in
        let session_key := session_key_of transport a b in
        let session_id := session_id_of session_key in
        let session :=
          match dict_get sessions session_key with
          | Some session => session
          | None => new_session session_id transport a b ts frame_no
          end in
        let session :=
          count_packet sample_frames_per_session session
            frame_no ts frame_len in
        let chain := text row "frame.protocols" in
        let session :=
          if truthy chain then count_chain session chain else session in
        let dns_qry := text row "dns.qry.name" in
        let '(session, events) :=
          if truthy dns_qry then
            (add_dns_query session (DnsQuery.mk dns_qry ts frame_no),
             (events ++ [TimelineEvent.mk ts session_id dns_query
                           ("DNS query: " ++ dns_qry) frame_no])%list)
          else (session, events) in
        let http_method := text row "http.request.method" in
        let http_host := text row "http.host" in
        let http_uri := text row "http.request.uri" in
        let '(session, events) :=
          if truthy http_method && (truthy http_host || truthy http_uri) then
            (add_http_request session
               (HttpRequest.mk http_method (or_None http_host)
                  (or_None http_uri) ts frame_no),
             (events ++ [TimelineEvent.mk ts session_id http_request
                           ("HTTP request: " ++ http_method ++ " "
                              ++ http_host ++ http_uri) frame_no])%list)
          else (session, events) in
        let sni := text row "tls.handshake.extensions_server_name" in
        let '(session, events) :=
          if truthy sni then
            (add_tls_sni session (TlsSni.mk sni ts frame_no),
             (events ++ [TimelineEvent.mk ts session_id tls_sni_kind
                           ("TLS SNI: " ++ sni) frame_no])%list)
          else (session, events) in
        State.mk (dict_set sessions session_key session) events
          packet_count (Some first_ts) (Some last_ts)
  | _, _ =>
      State.mk sessions events packet_count
        (State.first_ts st) (State.last_ts st)
  end.

(** The whole [for] loop over the rows read from the dissection tool. *)
Definition read_rows (rows : list Row) : State.t :=
  fold_left loop_body rows initial_state.
End Engine.

(** ** Rule engine *)

Definition Qc_geb (a b : Qc) : bool := Qle_bool b a.

(** The body of [for s in session_list]: duration and rule flags. *)
Definition rule_engine (s : Session.t) : Session.t :=
  let duration := (Session.last_ts s - Session.first_ts s)%Qc in
  let flags := [] in
  let flags :=
    if Session.packet_count s >=? 1000
    then (flags ++ [many_packets])%list else flags in
  let flags :=
    if Qc_geb duration (Q2Qc 60)
    then (flags ++ [long_duration])%list else flags in
  let flags :=
    if Session.byte_count s >=? 10 * 1024 * 1024
    then (flags ++ [large_bytes])%list else flags in
  let flags :=
    if String.eqb (transport_str (Session.transport s)) "other"
    then (flags ++ [non_tcp_udp])%list else flags in
  Session.mk (Session.id s) (Session.transport s) (Session.endpoints s)
    (Session.first_ts s) (Session.last_ts s) (Session.packet_count s)
    (Session.byte_count s) (Session.protocol_chains s) (Session.evidence s)
    (Session.observations s) flags (Some duration).

(** ** Timeline builder and artifact assembler *)

(** [sorted(events, key=lambda e: e.ts)] *)
Definition event_lt (e1 e2 : TimelineEvent.t) : bool :=
  Qc_ltb (TimelineEvent.ts e1) (TimelineEvent.ts e2).

Definition timeline_of (events : list TimelineEvent.t) : list TimelineEvent.t :=
  sorted event_lt events.

(** [<] on the tuples [(s["first_ts"], s["id"])]: the first components
    decide unless they are equal. *)
Definition session_lt (s1 s2 : Session.t) : bool :=
  if Qeq_bool (Session.first_ts s1) (Session.first_ts s2)
  then String.ltb (Session.id s1) (Session.id s2)
  else Qc_ltb (Session.first_ts s1) (Session.first_ts s2).

Module Pcap.
Record t := mk {
  path : string;
  file_name : string;
  size_bytes : Z;
  sha256 : option string;
  packets_analyzed : Z;
  first_ts : option Qc;
  last_ts : option Qc
}.
End Pcap.

Module Tooling.
Record t := mk {
  tshark_path : string;
  tshark_version : option string
}.
End Tooling.

Module Artifact.
Record t := mk {
  schema_version : Z;
  generated_at : string;
  pcap : Pcap.t;
  tooling : Tooling.t;
  sessions : list Session.t;
  timeline : list TimelineEvent.t
}.
End Artifact.

Definition SCHEMA_VERSION : Z := 1.

(** What [analyze_pcap] asks of the operating system. *)
Module World.
Record t := mk {
  isfile : string -> bool;
  environ_TSHARK_PATH : option string;
  which_tshark : option string;
  (* rows, standard error and exit status of a dissection command *)
  run : list string -> list Row * string * Z;
  stat_size : string -> Z;
  abspath : string -> string;
  basename : string -> string;
  sha256_file : string -> string;
  tshark_version : string -> option string
}.
End World.

Inductive Exception :=
| FileNotFoundError (message : string)
| RuntimeError (message : string).

Inductive Result (A : Type) :=
| Raise (e : Exception)
| Return (a : A).
Arguments Raise {A} e.
Arguments Return {A} a.

(** A string option is true when it holds a non-empty string. *)
Definition truthy_opt (x : option string) : bool :=
  match x with
  | Some s => truthy s
  | None => false
  end.

Definition _resolve_tshark (w : World.t) (explicit_path : option string)
    : Result string :=
  if truthy_opt explicit_path then Return (or_empty explicit_path)
  else if truthy_opt (World.environ_TSHARK_PATH w)
  then Return (or_empty (World.environ_TSHARK_PATH w))
  else if truthy_opt (World.which_tshark w)
  then Return (or_empty (World.which_tshark w))
  else Raise (FileNotFoundError
    "tshark not found on PATH. Install Wireshark/tshark or set TSHARK_PATH.").

Definition fields : list string :=
  [ "frame.number"; "frame.time_epoch"; "frame.len"; "ip.src"; "ip.dst";
    "ipv6.src"; "ipv6.dst"; "tcp.srcport"; "tcp.dstport"; "udp.srcport";
    "udp.dstport"; "frame.protocols"; "dns.qry.name"; "http.request.method";
    "http.host"; "http.request.uri";
    "tls.handshake.extensions_server_name" ].

Definition tab : string := String (ascii_of_nat 9) EmptyString.
Definition separator_option : string := "separator=" ++ tab.

(** The command line of the dissection tool. *)
Definition cmd_of (tshark_bin pcap_path : string) (max_packets : option Z)
    : list string :=
  ([ tshark_bin; "-r"; pcap_path; "-n"; "-T"; "fields"; "-E"; "header=y";
     "-E"; separator_option; "-E"; "quote=d"; "-E"; "occurrence=f" ]
   ++ match max_packets with
      | Some n => ["-c"; str_int n]
      | None => []
      end
   ++ flat_map (fun f => ["-e"; f]) fields)%list.

Section Analyze.
Variable py_int : string -> option Z.
Variable py_float : string -> option Qc.
Variable sha1_hexdigest : string -> string.

(** [analyze_pcap], with the world it runs in and the reading of the
    clock made by [_utc_now_iso] as explicit arguments. *)
Definition analyze_pcap (w : World.t) (now : string) (pcap_path : string)
    (tshark_path : option string) (max_packets : option Z)
    (sample_frames_per_session : Z) (include_sha256 : bool)
    : Result Artifact.t :=
  if negb (World.isfile w pcap_path) then
    Raise (FileNotFoundError ("PCAP not found: " ++ pcap_path))
  else
    match _resolve_tshark w tshark_path with
    | Raise e => Raise e
    | Return tshark_bin =>
        let cmd := cmd_of tshark_bin pcap_path max_packets in
        let '(rows, stderr, rc) := World.run w cmd in
        let st :=
          read_rows py_int py_float sha1_hexdigest
            sample_frames_per_session rows in
        if negb (rc =? 0) then
          Raise (RuntimeError
            ("tshark failed (exit " ++ str_int rc ++ "): " ++ strip stderr))
        else
          let session_list := dict_values (State.sessions st) in
          let session_list := map rule_engine session_list in
          let timeline := timeline_of (State.events st) in
          Return (Artifact.mk SCHEMA_VERSION now
            (Pcap.mk (World.abspath w pcap_path)
               (World.basename w pcap_path)
               (World.stat_size w pcap_path)
               (if include_sha256
                then Some (World.sha256_file w pcap_path) else None)
               (State.packet_count st)
               (State.first_ts st) (State.last_ts st))
            (Tooling.mk tshark_bin (World.tshark_version w tshark_bin))
            (sorted session_lt session_list)
            timeline)
    end.
End Analyze.

(** * Properties *)

(** Stand-ins for the built-in parameters, used to run the engine on
    concrete rows: decimal integers, whole-second timestamps, and a digest
    that returns its input. *)
Definition decimal_int (s : string) : option Z :=
  option_map Z.of_int (NilZero.int_of_string s).

Definition decimal_float (s : string) : option Qc :=
  option_map (fun n => Q2Qc (inject_Z n)) (decimal_int s).

Definition plain_digest (s : string) : string := s.

(** ** Order facts *)

Lemma Qc_ltb_lt (a b : Qc) : Qc_ltb a b = true <-> (a < b)%Qc.
Proof.
  unfold Qc_ltb. rewrite negb_true_iff. split; intros H.
  - apply Qcnot_le_lt. intros Hle. apply Qle_bool_iff in Hle. congruence.
  - destruct (Qle_bool b a) eqn:E; [|reflexivity].
    apply Qle_bool_iff in E. exfalso. exact (Qclt_not_le _ _ H E).
Qed.

Lemma Qc_ltb_ge (a b : Qc) : Qc_ltb a b = false <-> (b <= a)%Qc.
Proof.
  unfold Qc_ltb. rewrite negb_false_iff. apply Qle_bool_iff.
Qed.

Lemma Qc_geb_ge (a b : Qc) : Qc_geb a b = true <-> (b <= a)%Qc.
Proof. unfold Qc_geb. apply Qle_bool_iff. Qed.

Lemma min_ts_le_l (a b : Qc) : (min_ts a b <= a)%Qc.
Proof.
  unfold min_ts. destruct (Qc_ltb b a) eqn:E.
  - apply Qclt_le_weak, Qc_ltb_lt, E.
  - apply Qcle_refl.
Qed.

Lemma min_ts_le_r (a b : Qc) : (min_ts a b <= b)%Qc.
Proof.
  unfold min_ts. destruct (Qc_ltb b a) eqn:E.
  - apply Qcle_refl.
  - apply Qc_ltb_ge, E.
Qed.

Lemma max_ts_ge_l (a b : Qc) : (a <= max_ts a b)%Qc.
Proof.
  unfold max_ts. destruct (Qc_ltb a b) eqn:E.
  - apply Qclt_le_weak, Qc_ltb_lt, E.
  - apply Qcle_refl.
Qed.

Lemma max_ts_ge_r (a b : Qc) : (b <= max_ts a b)%Qc.
Proof.
  unfold max_ts. destruct (Qc_ltb a b) eqn:E.
  - apply Qcle_refl.
  - apply Qc_ltb_ge, E.
Qed.

Lemma min_ts_cases (a b : Qc) : min_ts a b = a \/ min_ts a b = b.
Proof. unfold min_ts. destruct (Qc_ltb b a); auto. Qed.

Lemma max_ts_cases (a b : Qc) : max_ts a b = a \/ max_ts a b = b.
Proof. unfold max_ts. destruct (Qc_ltb a b); auto. Qed.

Lemma min_ts_glb (a b m : Qc) :
  (m <= a)%Qc -> (m <= b)%Qc -> (m <= min_ts a b)%Qc.
Proof. destruct (min_ts_cases a b) as [-> | ->]; auto. Qed.

Lemma max_ts_lub (a b m : Qc) :
  (a <= m)%Qc -> (b <= m)%Qc -> (max_ts a b <= m)%Qc.
Proof. destruct (max_ts_cases a b) as [-> | ->]; auto. Qed.

Create HintDb ts_order.

#[local] Hint Resolve min_ts_le_l min_ts_le_r max_ts_ge_l max_ts_ge_r
  min_ts_glb max_ts_lub Qcle_refl : ts_order.

Lemma min_ts_le_ll (a b c : Qc) : (min_ts (min_ts a b) c <= a)%Qc.
Proof. eapply Qcle_trans; [apply min_ts_le_l|apply min_ts_le_l]. Qed.

Lemma min_ts_le_lr (a b c : Qc) : (min_ts (min_ts a b) c <= b)%Qc.
Proof. eapply Qcle_trans; [apply min_ts_le_l|apply min_ts_le_r]. Qed.

Lemma max_ts_ge_ll (a b c : Qc) : (a <= max_ts (max_ts a b) c)%Qc.
Proof. eapply Qcle_trans; [apply max_ts_ge_l|apply max_ts_ge_l]. Qed.

Lemma max_ts_ge_lr (a b c : Qc) : (b <= max_ts (max_ts a b) c)%Qc.
Proof. eapply Qcle_trans; [apply max_ts_ge_r|apply max_ts_ge_l]. Qed.

#[local] Hint Resolve min_ts_le_ll min_ts_le_lr max_ts_ge_ll max_ts_ge_lr
  : ts_order.

Lemma min_ts_comm (a b : Qc) : min_ts a b = min_ts b a.
Proof. apply Qcle_antisym; auto with ts_order. Qed.

Lemma max_ts_comm (a b : Qc) : max_ts a b = max_ts b a.
Proof. apply Qcle_antisym; auto with ts_order. Qed.

Lemma min_ts_idem (a : Qc) : min_ts a a = a.
Proof. destruct (min_ts_cases a a); auto. Qed.

Lemma max_ts_idem (a : Qc) : max_ts a a = a.
Proof. destruct (max_ts_cases a a); auto. Qed.

(** Folding two timestamps into a bound gives the same bound in either
    order. *)
Lemma min_ts_swap (a b c : Qc) :
  min_ts (min_ts a b) c = min_ts (min_ts a c) b.
Proof. apply Qcle_antisym; auto with ts_order. Qed.

Lemma max_ts_swap (a b c : Qc) :
  max_ts (max_ts a b) c = max_ts (max_ts a c) b.
Proof. apply Qcle_antisym; auto with ts_order. Qed.

(** ** Flow key canonicalizer: symmetry *)

Lemma tuple_le_total (a b : string * Z) :
  tuple_le a b = false -> tuple_le b a = true.
Proof.
  unfold tuple_le. rewrite (String.eqb_sym (fst b)).
  destruct (String.eqb (fst a) (fst b)).
  - intros H. apply Z.leb_gt in H. apply Z.leb_le. lia.
  - intros H. destruct (String.leb_total (fst a) (fst b)); congruence.
Qed.

Lemma tuple_le_antisym (a b : string * Z) :
  tuple_le a b = true -> tuple_le b a = true -> a = b.
Proof.
  unfold tuple_le. rewrite (String.eqb_sym (fst b)).
  destruct a as [s m], b as [s' m']; simpl.
  destruct (String.eqb s s') eqn:E.
  - apply String.eqb_eq in E. intros H1 H2.
    apply Z.leb_le in H1, H2. f_equal; [assumption | lia].
  - intros H1 H2. apply String.eqb_neq in E.
    elim E. apply String.leb_antisym; assumption.
Qed.

(** The sentinel of an absent port is the port [-1] itself, so the encoding
    is one-to-one exactly on the ports that are not [-1]. *)
Definition real_port (p : option Z) : Prop := p <> Some (-1).

Lemma _canonical_endpoint_inj (i i' : string) (p p' : option Z) :
  real_port p -> real_port p' ->
  _canonical_endpoint i p = _canonical_endpoint i' p' -> i = i' /\ p = p'.
Proof.
  unfold real_port, _canonical_endpoint. intros Hp Hp' H.
  injection H as Hi Hn. split; [assumption|].
  destruct p as [n|], p' as [n'|]; congruence.
Qed.

(** C1, as amended: for every two endpoints whose port, when present, is
    not [-1] (so for all real port numbers), canonicalizing the pair as
    (src, dst) and as (dst, src) gives the same (a, b) assignment, with
    a <= b under the ordering that encodes an absent port as -1, hence the
    same session key and the same session identifier for every transport
    label. *)
Theorem canonical_pair_symmetric
    (sha1_hexdigest : string -> string) (transport : Transport)
    (src_ip dst_ip : string) (src_port dst_port : option Z) :
  real_port src_port -> real_port dst_port ->
  let ab := _canonical_pair src_ip src_port dst_ip dst_port in
  let ba := _canonical_pair dst_ip dst_port src_ip src_port in
  ab = ba
  /\ tuple_le (_canonical_endpoint (ip (fst ab)) (port (fst ab)))
       (_canonical_endpoint (ip (snd ab)) (port (snd ab))) = true
  /\ session_key_of transport (fst ab) (snd ab)
     = session_key_of transport (fst ba) (snd ba)
  /\ session_id_of sha1_hexdigest (session_key_of transport (fst ab) (snd ab))
     = session_id_of sha1_hexdigest
         (session_key_of transport (fst ba) (snd ba)).
Proof.
  intros Hs Hd ab ba.
  assert (E : ab = ba).
  { subst ab ba. unfold _canonical_pair.
    destruct (tuple_le (_canonical_endpoint src_ip src_port)
                (_canonical_endpoint dst_ip dst_port)) eqn:E1;
    destruct (tuple_le (_canonical_endpoint dst_ip dst_port)
                (_canonical_endpoint src_ip src_port)) eqn:E2;
      try reflexivity.
    - destruct (_canonical_endpoint_inj _ _ _ _ Hs Hd
                  (tuple_le_antisym _ _ E1 E2)) as [-> ->].
      reflexivity.
    - apply tuple_le_total in E1. congruence. }
  split; [exact E|]. split; [|rewrite E; split; reflexivity].
  subst ab. unfold _canonical_pair.
  destruct (tuple_le (_canonical_endpoint src_ip src_port)
              (_canonical_endpoint dst_ip dst_port)) eqn:E1; simpl.
  - exact E1.
  - apply tuple_le_total, E1.
Qed.

Lemma canonical_pair_symmetric_witness :
  let ab :=
    _canonical_pair "93.184.216.34" (Some 443) "10.0.0.1" (Some 51000) in
  let ba :=
    _canonical_pair "10.0.0.1" (Some 51000) "93.184.216.34" (Some 443) in
  ab = ba
  /\ tuple_le (_canonical_endpoint (ip (fst ab)) (port (fst ab)))
       (_canonical_endpoint (ip (snd ab)) (port (snd ab))) = true
  /\ session_key_of tcp (fst ab) (snd ab) = session_key_of tcp (fst ba) (snd ba)
  /\ session_id_of plain_digest (session_key_of tcp (fst ab) (snd ab))
     = session_id_of plain_digest (session_key_of tcp (fst ba) (snd ba)).
Proof.
  apply (canonical_pair_symmetric plain_digest tcp
           "93.184.216.34" "10.0.0.1" (Some 443) (Some 51000));
    unfold real_port; discriminate.
Defined.

(** C1, as stated, fails where one port is absent and the other is the
    integer [-1] on the same address: both endpoints encode to the same
    tuple, each direction keeps its own source first, and the two session
    keys differ. *)
Lemma canonical_pair_not_symmetric :
  _canonical_pair "10.0.0.1" None "10.0.0.1" (Some (-1))
    <> _canonical_pair "10.0.0.1" (Some (-1)) "10.0.0.1" None
  /\ (let ab := _canonical_pair "10.0.0.1" None "10.0.0.1" (Some (-1)) in
      let ba := _canonical_pair "10.0.0.1" (Some (-1)) "10.0.0.1" None in
      session_key_of tcp (fst ab) (snd ab) = "tcp:10.0.0.1:None->10.0.0.1:-1"
      /\ session_key_of tcp (fst ba) (snd ba)
         = "tcp:10.0.0.1:-1->10.0.0.1:None").
Proof.
  split; [|split; reflexivity].
  vm_compute. discriminate.
Qed.

(** Swapping source and destination ports swaps the ports of the flow and
    keeps its transport. *)
Lemma transport_of_symmetric (tcp_src tcp_dst udp_src udp_dst : option Z) :
  let '(transport, src_port, dst_port) :=
    transport_of tcp_src tcp_dst udp_src udp_dst in
  transport_of tcp_dst tcp_src udp_dst udp_src
  = (transport, dst_port, src_port).
Proof.
  destruct tcp_src, tcp_dst, udp_src, udp_dst; reflexivity.
Qed.

(** ** Rule engine: thresholds *)

Lemma transport_str_other (t : Transport) :
  String.eqb (transport_str t) "other" = true <-> t = other.
Proof. destruct t; simpl; split; congruence. Qed.


(** A session with the given counters, for the boundary cases. *)
Definition session_with (transport : Transport) (first_ts last_ts : Qc)
    (packet_count byte_count : Z) : Session.t :=
  Session.mk "" transport (mkEndpoint "" None, mkEndpoint "" None)
    first_ts last_ts packet_count byte_count []
    (Evidence.mk 1 1 []) (Observations.mk [] [] []) [] None.

Definition flags_of (s : Session.t) : list RuleFlag :=
  Session.rule_flags (rule_engine s).

(** Exactly 1000 packets, exactly 60 seconds and exactly 10485760 bytes are
    flagged; one packet, one millisecond or one byte less is not. *)
Example rule_flags_boundaries :
  flags_of (session_with tcp (Q2Qc 100) (Q2Qc 100) 1000 0) = [many_packets]
  /\ flags_of (session_with tcp (Q2Qc 100) (Q2Qc 100) 999 0) = []
  /\ flags_of (session_with tcp (Q2Qc 100) (Q2Qc 160) 1 0) = [long_duration]
  /\ flags_of (session_with tcp (Q2Qc 100) (Q2Qc (159999 # 1000)) 1 0) = []
  /\ flags_of (session_with tcp (Q2Qc 100) (Q2Qc 100) 1 10485760)
     = [large_bytes]
  /\ flags_of (session_with tcp (Q2Qc 100) (Q2Qc 100) 1 10485759) = []
  /\ flags_of (session_with other (Q2Qc 0) (Q2Qc 60) 1000 10485760)
     = [many_packets; long_duration; large_bytes; non_tcp_udp].
Proof. repeat split; vm_compute; reflexivity. Qed.

(** ** The reading loop, case by case *)

Section LoopFacts.
Variable py_int : string -> option Z.
Variable py_float : string -> option Qc.
Variable sha1_hexdigest : string -> string.
Variable sample_frames_per_session : Z.

#[local] Abbreviation safe_int := (_safe_int py_int).
#[local] Abbreviation safe_float := (_safe_float py_float).
#[local] Abbreviation body :=
  (loop_body py_int py_float sha1_hexdigest sample_frames_per_session).
#[local] Abbreviation loop :=
  (read_rows py_int py_float sha1_hexdigest sample_frames_per_session).

(** Frame number and timestamp of a row that yields both. *)
Definition stamped (row : Row) : option (Z * Qc) :=
  match safe_int (get row "frame.number"),
        safe_float (get row "frame.time_epoch") with
  | Some frame_no, Some ts => Some (frame_no, ts)
  | _, _ => None
  end.

(** A row yields its addresses when both are non-empty. *)
Definition addressed (row : Row) : bool :=
  truthy (address row "ip.src" "ipv6.src")
  && truthy (address row "ip.dst" "ipv6.dst").

(** Transport and canonical endpoints of a row. *)
Definition flow_of (row : Row) : Transport * (Endpoint * Endpoint) :=
  let '(transport, src_port, dst_port) :=
    transport_of (safe_int (get row "tcp.srcport"))
      (safe_int (get row "tcp.dstport"))
      (safe_int (get row "udp.srcport"))
      (safe_int (get row "udp.dstport")) in
  (transport,
   _canonical_pair (address row "ip.src" "ipv6.src") src_port
     (address row "ip.dst" "ipv6.dst") dst_port).

Definition key_of (row : Row) : string :=
  let '(transport, (a, b)) := flow_of row in session_key_of transport a b.

(** The session key of a row that reaches the aggregator. *)
Definition ingested (row : Row) : option string :=
  match stamped row with
  | Some _ => if addressed row then Some (key_of row) else None
  | None => None
  end.

(** The timeline events a row emits, in emission order. *)
Definition row_events (row : Row) : list TimelineEvent.t :=
  match stamped row with
  | Some (frame_no, ts) =>
      if addressed row then
        let session_id := session_id_of sha1_hexdigest (key_of row) in
        let dns_qry := text row "dns.qry.name" in
        let http_method := text row "http.request.method" in
        let http_host := text row "http.host" in
        let http_uri := text row "http.request.uri" in
        let sni := text row "tls.handshake.extensions_server_name" in
        (if truthy dns_qry
         then [TimelineEvent.mk ts session_id dns_query
                 ("DNS query: " ++ dns_qry) frame_no]
         else [])
        ++ (if truthy http_method && (truthy http_host || truthy http_uri)
            then [TimelineEvent.mk ts session_id http_request
                    ("HTTP request: " ++ http_method ++ " "
                       ++ http_host ++ http_uri) frame_no]
            else [])
        ++ (if truthy sni
            then [TimelineEvent.mk ts session_id tls_sni_kind
                    ("TLS SNI: " ++ sni) frame_no]
            else [])
      else []
  | None => []
  end%list.

(** What the rule engine and the evidence block read from a session. *)
Definition counters (s : Session.t)
    : string * Transport * Qc * Qc * Z * Z * Evidence.t :=
  (Session.id s, Session.transport s, Session.first_ts s, Session.last_ts s,
   Session.packet_count s, Session.byte_count s, Session.evidence s).

Lemma counters_count_chain s chain :
  counters (count_chain s chain) = counters s.
Proof. reflexivity. Qed.

Lemma counters_add_dns_query s q :
  counters (add_dns_query s q) = counters s.
Proof. reflexivity. Qed.

Lemma counters_add_http_request s r :
  counters (add_http_request s r) = counters s.
Proof. reflexivity. Qed.

Lemma counters_add_tls_sni s x : counters (add_tls_sni s x) = counters s.
Proof. reflexivity. Qed.

(** The session a row is folded into: the stored one, or a fresh one. *)
Definition session_for (st : State.t) (row : Row) (frame_no : Z) (ts : Qc)
    : Session.t :=
  match dict_get (State.sessions st) (key_of row) with
  | Some session => session
  | None =>
      let '(transport, (a, b)) := flow_of row in
      new_session (session_id_of sha1_hexdigest (key_of row))
        transport a b ts frame_no
  end.

(** The three ways through the loop body. *)
Lemma loop_body_unstamped st row :
  stamped row = None ->
  body st row
  = State.mk (State.sessions st) (State.events st)
      (State.packet_count st + 1) (State.first_ts st) (State.last_ts st).
Proof.
  unfold stamped, loop_body. intros H.
  destruct (safe_int (get row "frame.number")); [|reflexivity].
  destruct (safe_float (get row "frame.time_epoch")); [discriminate|].
  reflexivity.
Qed.

Definition first_ts_after (st : State.t) (ts : Qc) : Qc :=
  match State.first_ts st with
  | None => ts
  | Some first_ts => min_ts first_ts ts
  end.

Definition last_ts_after (st : State.t) (ts : Qc) : Qc :=
  match State.last_ts st with
  | None => ts
  | Some last_ts => max_ts last_ts ts
  end.

Lemma loop_body_unaddressed st row frame_no ts :
  stamped row = Some (frame_no, ts) -> addressed row = false ->
  body st row
  = State.mk (State.sessions st) (State.events st)
      (State.packet_count st + 1)
      (Some (first_ts_after st ts)) (Some (last_ts_after st ts)).
Proof.
  unfold stamped, addressed, loop_body. intros H Ha.
  destruct (safe_int (get row "frame.number")); [|discriminate].
  destruct (safe_float (get row "frame.time_epoch")); [|discriminate].
  injection H as -> ->.
  rewrite <- negb_andb, Ha. reflexivity.
Qed.

Lemma loop_body_ingested st row frame_no ts :
  stamped row = Some (frame_no, ts) -> addressed row = true ->
  exists session,
    body st row
    = State.mk (dict_set (State.sessions st) (key_of row) session)
        (State.events st ++ row_events row)
        (State.packet_count st + 1)
        (Some (first_ts_after st ts)) (Some (last_ts_after st ts))
    /\ counters session
       = counters (count_packet sample_frames_per_session
                     (session_for st row frame_no ts) frame_no ts
                     (safe_int (get row "frame.len"))).
Proof.
  unfold row_events, session_for, key_of, flow_of.
  intros H Ha. rewrite H, Ha.
  unfold stamped, addressed, loop_body in *.
  destruct (safe_int (get row "frame.number")); [|discriminate].
  destruct (safe_float (get row "frame.time_epoch")); [|discriminate].
  injection H as -> ->.
  rewrite <- negb_andb, Ha. cbv beta iota zeta.
  destruct (transport_of _ _ _ _) as [[transport src_port] dst_port].
  destruct (_canonical_pair _ _ _ _) as [a b].
  cbv beta iota zeta.
  destruct (truthy (text row "frame.protocols"));
    destruct (truthy (text row "dns.qry.name"));
    destruct (truthy (text row "http.request.method")
              && (truthy (text row "http.host")
                  || truthy (text row "http.request.uri")));
    destruct (truthy (text row "tls.handshake.extensions_server_name"));
    cbv beta iota zeta;
    eexists; (split; [repeat rewrite <- app_assoc; simpl;
                      rewrite ?app_nil_r; reflexivity | reflexivity]).
Qed.
End LoopFacts.

(** ** Dictionary facts *)

Section DictFacts.
Context {V : Type}.
Implicit Types (d : list (string * V)) (k : string) (v : V).

Lemma dict_get_set_same d k v : dict_get (dict_set d k v) k = Some v.
Proof.
  induction d as [|[k' v'] d IH]; simpl.
  - rewrite String.eqb_refl. reflexivity.
  - destruct (String.eqb k' k) eqn:E; simpl; rewrite E; auto.
Qed.

Lemma dict_get_set_other d k k' v :
  k <> k' -> dict_get (dict_set d k v) k' = dict_get d k'.
Proof.
  intros Hne. induction d as [|[k0 v0] d IH]; simpl.
  - apply String.eqb_neq in Hne. rewrite Hne. reflexivity.
  - destruct (String.eqb k0 k) eqn:E; simpl.
    + apply String.eqb_eq in E. subst k0.
      apply String.eqb_neq in Hne. rewrite Hne. reflexivity.
    + rewrite IH. reflexivity.
Qed.

Lemma dict_get_set d k k' v :
  dict_get (dict_set d k v) k'
  = if String.eqb k k' then Some v else dict_get d k'.
Proof.
  destruct (String.eqb k k') eqn:E.
  - apply String.eqb_eq in E. subst. apply dict_get_set_same.
  - apply String.eqb_neq in E. apply dict_get_set_other, E.
Qed.

Lemma dict_get_In d k v : dict_get d k = Some v -> In v (dict_values d).
Proof.
  induction d as [|[k' v'] d IH]; simpl; [discriminate|].
  destruct (String.eqb k' k).
  - intros [= ->]. auto.
  - auto.
Qed.

Lemma In_dict_values_get d v :
  In v (dict_values d) -> exists k, In (k, v) d.
Proof.
  unfold dict_values. rewrite in_map_iff.
  intros [[k v'] [E H]]. simpl in E. subst. eauto.
Qed.

Lemma Forall_dict_set (P : V -> Prop) d k v :
  Forall P (dict_values d) -> P v -> Forall P (dict_values (dict_set d k v)).
Proof.
  intros Hd Hv. induction d as [|[k' v'] d IH]; simpl.
  - auto.
  - inversion Hd; subst. destruct (String.eqb k' k); simpl; auto.
Qed.
End DictFacts.

(** ** Sorting facts *)

Section SortedFacts.
Context {A : Type} (lt : A -> A -> bool).

Lemma insert_sorted_perm x l : Permutation (x :: l) (insert_sorted lt x l).
Proof.
  induction l as [|y l IH]; simpl; [reflexivity|].
  destruct (lt y x); [|reflexivity].
  rewrite perm_swap. apply perm_skip, IH.
Qed.

Lemma sorted_perm l : Permutation l (sorted lt l).
Proof.
  induction l as [|x l IH]; simpl; [reflexivity|].
  rewrite <- insert_sorted_perm. apply perm_skip, IH.
Qed.

Lemma Forall_sorted (P : A -> Prop) l : Forall P l -> Forall P (sorted lt l).
Proof. intros H. eapply Permutation_Forall; [apply sorted_perm|exact H]. Qed.
End SortedFacts.

(** ** What a successful run returns *)

Section AnalyzeFacts.
Variable py_int : string -> option Z.
Variable py_float : string -> option Qc.
Variable sha1_hexdigest : string -> string.

#[local] Abbreviation analyze :=
  (analyze_pcap py_int py_float sha1_hexdigest).
#[local] Abbreviation loop cap :=
  (read_rows py_int py_float sha1_hexdigest cap).

(** The artifact assembled from the final state of the reading loop. *)
Definition artifact_of (w : World.t) (now pcap_path tshark_bin : string)
    (include_sha256 : bool) (st : State.t) : Artifact.t :=
  Artifact.mk SCHEMA_VERSION now
    (Pcap.mk (World.abspath w pcap_path) (World.basename w pcap_path)
       (World.stat_size w pcap_path)
       (if include_sha256
        then Some (World.sha256_file w pcap_path) else None)
       (State.packet_count st) (State.first_ts st) (State.last_ts st))
    (Tooling.mk tshark_bin (World.tshark_version w tshark_bin))
    (sorted session_lt
       (map rule_engine (dict_values (State.sessions st))))
    (timeline_of (State.events st)).

Lemma analyze_pcap_Return w now pcap_path tshark_path max_packets cap
    include_sha256 a :
  analyze w now pcap_path tshark_path max_packets cap include_sha256
    = Return a ->
  exists tshark_bin rows stderr,
    _resolve_tshark w tshark_path = Return tshark_bin
    /\ World.run w (cmd_of tshark_bin pcap_path max_packets)
       = (rows, stderr, 0)
    /\ a = artifact_of w now pcap_path tshark_bin include_sha256
             (loop cap rows).
Proof.
  unfold analyze_pcap.
  destruct (World.isfile w pcap_path); simpl; [|discriminate].
  destruct (_resolve_tshark w tshark_path) as [e|tshark_bin];
    [discriminate|].
  destruct (World.run w _) as [[rows stderr] rc] eqn:Erun.
  destruct (rc =? 0) eqn:Erc; simpl; [|discriminate].
  apply Z.eqb_eq in Erc. subst rc.
  intros [= <-]. exists tshark_bin, rows, stderr. auto.
Qed.
End AnalyzeFacts.

(** ** A small capture to run the engine on *)

Definition packet (frame_no ts len src dst sport dport : string)
    (extra : Row) : Row :=
  ([ ("frame.number", frame_no); ("frame.time_epoch", ts);
     ("frame.len", len); ("ip.src", src); ("ip.dst", dst);
     ("ipv6.src", ""); ("ipv6.dst", "");
     ("tcp.srcport", sport); ("tcp.dstport", dport);
     ("udp.srcport", ""); ("udp.dstport", "") ] ++ extra)%list.

(** Frames 1 and 2 are the two directions of one TCP conversation, frame 3
    has no address, frame 4 carries a DNS name over UDP, and the last row
    has no frame number. *)
Definition sample_rows : list Row :=
  [ packet "1" "100" "60" "10.0.0.1" "93.184.216.34" "51000" "443"
      [("frame.protocols", "eth:ethertype:ip:tcp")];
    packet "2" "102" "1500" "93.184.216.34" "10.0.0.1" "443" "51000"
      [("frame.protocols", "eth:ethertype:ip:tcp");
       ("tls.handshake.extensions_server_name", "example.com")];
    packet "3" "99" "42" "" "" "" ""
      [("frame.protocols", "eth:ethertype:arp")];
    [ ("frame.number", "4"); ("frame.time_epoch", "101");
      ("frame.len", "80"); ("ip.src", "10.0.0.1"); ("ip.dst", "10.0.0.53");
      ("udp.srcport", "5353"); ("udp.dstport", "53");
      ("frame.protocols", "eth:ethertype:ip:udp:dns");
      ("dns.qry.name", "example.com") ];
    packet "" "103" "60" "10.0.0.1" "93.184.216.34" "51000" "443" [] ].

Definition sample_world : World.t :=
  World.mk (fun _ => true) None (Some "/usr/bin/tshark")
    (fun _ => (sample_rows, "", 0))
    (fun _ => 1782) (fun p => "/captures/" ++ p) (fun p => p)
    (fun _ => "9f86d081884c7d659a2feaa0c55ad015")
    (fun _ => Some "TShark (Wireshark) 4.2.2").

Definition sample_run (now : string) (cap : Z) (include_sha256 : bool)
    : Result Artifact.t :=
  analyze_pcap decimal_int decimal_float plain_digest sample_world now
    "trace.pcap" None None cap include_sha256.

Definition sample_state (cap : Z) : State.t :=
  read_rows decimal_int decimal_float plain_digest cap sample_rows.

(** ** Invariants of the session table *)

Section Invariants.
Variable py_int : string -> option Z.
Variable py_float : string -> option Qc.
Variable sha1_hexdigest : string -> string.
Variable sample_frames_per_session : Z.

#[local] Abbreviation cap := sample_frames_per_session.
#[local] Abbreviation body :=
  (loop_body py_int py_float sha1_hexdigest cap).
#[local] Abbreviation loop :=
  (read_rows py_int py_float sha1_hexdigest cap).
#[local] Abbreviation stamped := (stamped py_int py_float).
#[local] Abbreviation addressed := (addressed).
#[local] Abbreviation key_of := (key_of py_int).

(** A property of the counters that holds after the first packet of a
    session and survives every further packet holds for every stored
    session, after every row. *)
Section Preserved.
Variable P :
  string * Transport * Qc * Qc * Z * Z * Evidence.t -> Prop.
Hypothesis P_first : forall sid transport a b ts frame_no frame_len,
  P (counters (count_packet cap
                 (new_session sid transport a b ts frame_no)
                 frame_no ts frame_len)).
Hypothesis P_next : forall s ts frame_no frame_len,
  P (counters s) -> P (counters (count_packet cap s frame_no ts frame_len)).

Definition all_sessions (st : State.t) : Prop :=
  Forall (fun s => P (counters s)) (dict_values (State.sessions st)).

Lemma loop_body_preserves st row :
  all_sessions st -> all_sessions (body st row).
Proof.
  unfold all_sessions. intros Hst.
  destruct (stamped row) as [[frame_no ts]|] eqn:Es.
  - destruct (addressed row) eqn:Ea.
    + destruct (loop_body_ingested py_int py_float sha1_hexdigest cap
                  st row frame_no ts Es Ea) as [session [-> Hc]].
      simpl. apply Forall_dict_set; [exact Hst|].
      rewrite Hc. unfold session_for.
      destruct (dict_get (State.sessions st) _) as [s|] eqn:Eg.
      * apply P_next. rewrite Forall_forall in Hst.
        apply Hst. eapply dict_get_In, Eg.
      * destruct (flow_of py_int row) as [transport [a b]].
        apply P_first.
    + rewrite (loop_body_unaddressed _ _ _ _ _ _ _ _ Es Ea). exact Hst.
  - rewrite (loop_body_unstamped _ _ _ _ _ _ Es). exact Hst.
Qed.

Lemma fold_loop_body_preserves rows st :
  all_sessions st -> all_sessions (fold_left body rows st).
Proof.
  revert st. induction rows as [|row rows IH]; simpl; intros st Hst.
  - exact Hst.
  - apply IH, loop_body_preserves, Hst.
Qed.

Lemma read_rows_preserves rows : all_sessions (loop rows).
Proof. apply fold_loop_body_preserves. constructor. Qed.
End Preserved.
End Invariants.

Lemma counters_rule_engine s : counters (rule_engine s) = counters s.
Proof. reflexivity. Qed.

(** ** Bounded evidence sample *)

Definition sample_size (s : Session.t) : Z :=
  Z.of_nat (length (Evidence.sample_frames (Session.evidence s))).

Lemma count_packet_sample_size cap s frame_no ts frame_len :
  sample_size s <= Z.max 0 cap ->
  sample_size (count_packet cap s frame_no ts frame_len) <= Z.max 0 cap.
Proof.
  unfold sample_size, count_packet. simpl.
  destruct (Z.ltb_spec
              (Z.of_nat
                 (length (Evidence.sample_frames (Session.evidence s))))
              cap).
  - rewrite length_app. simpl. lia.
  - auto.
Qed.

(** C4, as amended: for every input stream and every cap that is not
    negative, no session ever holds more sample frames than the cap, during
    the aggregation and in the artifact, and a packet that finds the sample
    full leaves it as it is; for a negative cap the sample stays empty, so
    in general the length is at most max(0, cap). *)
Theorem sample_frames_bounded
    (py_int : string -> option Z) (py_float : string -> option Qc)
    (sha1_hexdigest : string -> string) (cap : Z) (rows : list Row) :
  let st := read_rows py_int py_float sha1_hexdigest cap rows in
  Forall (fun s => sample_size s <= Z.max 0 cap)
    (dict_values (State.sessions st))
  /\ Forall (fun s => sample_size s <= Z.max 0 cap)
       (sorted session_lt (map rule_engine (dict_values (State.sessions st))))
  /\ (0 <= cap ->
      Forall (fun s => sample_size s <= cap)
        (sorted session_lt
           (map rule_engine (dict_values (State.sessions st)))))
  /\ (forall s frame_no ts frame_len,
        cap <= sample_size s ->
        Evidence.sample_frames
          (Session.evidence (count_packet cap s frame_no ts frame_len))
        = Evidence.sample_frames (Session.evidence s)).
Proof.
  intros st.
  assert (H : Forall (fun s => sample_size s <= Z.max 0 cap)
                (dict_values (State.sessions st))).
  { apply (read_rows_preserves py_int py_float sha1_hexdigest cap
             (fun c => Z.of_nat (length (Evidence.sample_frames (snd c)))
                       <= Z.max 0 cap)).
    - intros. apply (count_packet_sample_size cap
                       (new_session sid transport a b ts frame_no)).
      unfold sample_size. simpl. lia.
    - intros s ts frame_no frame_len Hs.
      apply (count_packet_sample_size cap s). exact Hs. }
  assert (H' : Forall (fun s => sample_size s <= Z.max 0 cap)
                 (sorted session_lt
                    (map rule_engine (dict_values (State.sessions st))))).
  { apply Forall_sorted. rewrite Forall_map. exact H. }
  repeat split; auto.
  - intros Hcap. rewrite Z.max_r in H' by exact Hcap. exact H'.
  - intros s frame_no ts frame_len Hfull. unfold sample_size in Hfull.
    unfold count_packet. simpl.
    destruct (Z.ltb_spec
                (Z.of_nat
                   (length (Evidence.sample_frames (Session.evidence s))))
                cap); [lia | reflexivity].
Qed.

(** C4, as stated, fails for a negative cap: the sample of the session is
    empty, and its length 0 exceeds the cap -1. *)
Lemma sample_frames_exceed_negative_cap :
  ~ Forall (fun s => sample_size s <= -1)
      (dict_values (State.sessions (sample_state (-1)))).
Proof.
  intros H. vm_compute in H. inversion H as [|s l Hs Hl]; subst.
  apply Hs. reflexivity.
Qed.

(** ** Time bounds of a session *)

Definition ordered_bounds (s : Session.t) : Prop :=
  (Session.first_ts s <= Session.last_ts s)%Qc.

Lemma count_packet_ordered_bounds cap s frame_no ts frame_len :
  ordered_bounds s ->
  ordered_bounds (count_packet cap s frame_no ts frame_len).
Proof.
  unfold ordered_bounds, count_packet. simpl. intros H.
  eapply Qcle_trans; [apply min_ts_le_l|].
  eapply Qcle_trans; [exact H|]. apply max_ts_ge_l.
Qed.

Lemma rule_engine_duration s :
  ordered_bounds s ->
  exists d, Session.duration_seconds (rule_engine s) = Some d
            /\ d = (Session.last_ts s - Session.first_ts s)%Qc
            /\ (Q2Qc 0 <= d)%Qc.
Proof.
  intros H. eexists. split; [reflexivity|]. split; [reflexivity|].
  apply Qcle_minus_iff in H. exact H.
Qed.

(** The computed duration of a finalized session is not negative. *)
Definition finalized_ok (s : Session.t) : Prop :=
  ordered_bounds s
  /\ exists d, Session.duration_seconds s = Some d
               /\ d = (Session.last_ts s - Session.first_ts s)%Qc
               /\ (Q2Qc 0 <= d)%Qc.


(** ** Dropped rows and the time bounds of the capture *)

Section Dropped.
Variable py_int : string -> option Z.
Variable py_float : string -> option Qc.
Variable sha1_hexdigest : string -> string.
Variable cap : Z.

#[local] Abbreviation body :=
  (loop_body py_int py_float sha1_hexdigest cap).
#[local] Abbreviation loop :=
  (read_rows py_int py_float sha1_hexdigest cap).

Lemma stamped_None row :
  _safe_int py_int (get row "frame.number") = None
  \/ _safe_float py_float (get row "frame.time_epoch") = None ->
  stamped py_int py_float row = None.
Proof.
  unfold stamped. intros [-> | ->]; [reflexivity|].
  destruct (_safe_int py_int _); reflexivity.
Qed.

Lemma stamped_Some row frame_no ts :
  _safe_int py_int (get row "frame.number") = Some frame_no ->
  _safe_float py_float (get row "frame.time_epoch") = Some ts ->
  stamped py_int py_float row = Some (frame_no, ts).
Proof. unfold stamped. intros -> ->. reflexivity. Qed.

Lemma addressed_false row :
  address row "ip.src" "ipv6.src" = ""
  \/ address row "ip.dst" "ipv6.dst" = "" ->
  addressed row = false.
Proof.
  unfold addressed. intros [-> | ->]; simpl; [reflexivity|].
  apply andb_false_r.
Qed.

Lemma loop_body_packet_count st row :
  State.packet_count (body st row) = State.packet_count st + 1.
Proof.
  destruct (stamped py_int py_float row) as [[frame_no ts]|] eqn:Es.
  - destruct (addressed row) eqn:Ea.
    + destruct (loop_body_ingested py_int py_float sha1_hexdigest cap
                  st row frame_no ts Es Ea) as [session [-> _]].
      reflexivity.
    + rewrite (loop_body_unaddressed _ _ _ _ _ _ _ _ Es Ea). reflexivity.
  - rewrite (loop_body_unstamped _ _ _ _ _ _ Es). reflexivity.
Qed.

Lemma fold_loop_body_packet_count rows st :
  State.packet_count (fold_left body rows st)
  = State.packet_count st + Z.of_nat (length rows).
Proof.
  revert st. induction rows as [|row rows IH]; intros st; simpl length.
  - simpl. lia.
  - simpl fold_left. rewrite IH, loop_body_packet_count. lia.
Qed.

(** The timestamps of the rows that yield a frame number and a
    timestamp, whether or not they yield addresses. *)
Definition timestamps (rows : list Row) : list Qc :=
  flat_map (fun row =>
              match stamped py_int py_float row with
              | Some (_, ts) => [ts]
              | None => []
              end) rows.

Definition fold_bound (f : Qc -> Qc -> Qc) (bound : option Qc)
    (l : list Qc) : option Qc :=
  fold_left (fun bound ts =>
               Some match bound with
                    | None => ts
                    | Some b => f b ts
                    end) l bound.

Lemma loop_body_bounds st row :
  State.first_ts (body st row)
  = fold_bound min_ts (State.first_ts st) (timestamps [row])
  /\ State.last_ts (body st row)
     = fold_bound max_ts (State.last_ts st) (timestamps [row]).
Proof.
  unfold timestamps, fold_bound. simpl.
  destruct (stamped py_int py_float row) as [[frame_no ts]|] eqn:Es.
  - destruct (addressed row) eqn:Ea.
    + destruct (loop_body_ingested py_int py_float sha1_hexdigest cap
                  st row frame_no ts Es Ea) as [session [-> _]].
      split; reflexivity.
    + rewrite (loop_body_unaddressed _ _ _ _ _ _ _ _ Es Ea).
      split; reflexivity.
  - rewrite (loop_body_unstamped _ _ _ _ _ _ Es). split; reflexivity.
Qed.

Lemma fold_loop_body_bounds rows st :
  State.first_ts (fold_left body rows st)
  = fold_bound min_ts (State.first_ts st) (timestamps rows)
  /\ State.last_ts (fold_left body rows st)
     = fold_bound max_ts (State.last_ts st) (timestamps rows).
Proof.
  revert st. induction rows as [|row rows IH]; intros st.
  - split; reflexivity.
  - simpl fold_left. destruct (IH (body st row)) as [-> ->].
    destruct (loop_body_bounds st row) as [-> ->].
    replace (timestamps (row :: rows))
      with (timestamps [row] ++ timestamps rows)%list
      by (unfold timestamps; simpl; rewrite app_nil_r; reflexivity).
    unfold fold_bound. rewrite !fold_left_app. split; reflexivity.
Qed.
End Dropped.

(** C6: a row that yields no frame number, no timestamp, no source address
    or no destination address leaves the session table and the event list
    as they were (no session created or changed, no event emitted), and the
    counter of processed packets still goes up by one; the loop body is a
    total function, so nothing is raised, and after the whole stream the
    counter is the number of rows read. *)
Theorem unusable_row_is_dropped
    (py_int : string -> option Z) (py_float : string -> option Qc)
    (sha1_hexdigest : string -> string) (cap : Z)
    (st : State.t) (row : Row) :
  _safe_int py_int (get row "frame.number") = None
  \/ _safe_float py_float (get row "frame.time_epoch") = None
  \/ address row "ip.src" "ipv6.src" = ""
  \/ address row "ip.dst" "ipv6.dst" = "" ->
  let st' := loop_body py_int py_float sha1_hexdigest cap st row in
  State.sessions st' = State.sessions st
  /\ State.events st' = State.events st
  /\ State.packet_count st' = State.packet_count st + 1
  /\ forall rows,
       State.packet_count
         (read_rows py_int py_float sha1_hexdigest cap rows)
       = Z.of_nat (length rows).
Proof.
  intros H st'. subst st'.
  split; [|split; [|split]].
  3: apply loop_body_packet_count.
  3: { intros rows. unfold read_rows.
       rewrite fold_loop_body_packet_count. reflexivity. }
  all: destruct (stamped py_int py_float row) as [[frame_no ts]|] eqn:Es;
    [ assert (Ea : addressed row = false)
        by (apply addressed_false;
            destruct H as [H | [H | [H | H]]]; auto;
            unfold stamped in Es; rewrite H in Es;
            [discriminate Es
            |destruct (_safe_int py_int (get row "frame.number"));
             discriminate Es]);
      rewrite (loop_body_unaddressed _ _ _ _ _ _ _ _ Es Ea); reflexivity
    | rewrite (loop_body_unstamped _ _ _ _ _ _ Es); reflexivity ].
Qed.

(** Frame 3 of the sample capture has no address: it is dropped after the
    two rows before it, and still counted. *)
Lemma unusable_row_is_dropped_witness :
  let st := read_rows decimal_int decimal_float plain_digest 8
              (firstn 2 sample_rows) in
  let row := nth 2 sample_rows [] in
  let st' := loop_body decimal_int decimal_float plain_digest 8 st row in
  State.sessions st' = State.sessions st
  /\ State.events st' = State.events st
  /\ State.packet_count st' = State.packet_count st + 1
  /\ forall rows,
       State.packet_count
         (read_rows decimal_int decimal_float plain_digest 8 rows)
       = Z.of_nat (length rows).
Proof.
  apply (unusable_row_is_dropped decimal_int decimal_float plain_digest 8
           (read_rows decimal_int decimal_float plain_digest 8
              (firstn 2 sample_rows))
           (nth 2 sample_rows [])).
  right. right. left. reflexivity.
Defined.

(** C10: a row that yields a frame number and a timestamp but lacks an
    address still moves the time bounds of the capture to include its
    timestamp, while it changes no session and emits no event; so after the
    whole stream the bounds recorded in the artifact are the minimum and
    the maximum over the timestamps of all rows that yield a frame number
    and a timestamp, dropped for their addresses or not. *)
Theorem unaddressed_row_moves_time_bounds
    (py_int : string -> option Z) (py_float : string -> option Qc)
    (sha1_hexdigest : string -> string) (cap : Z)
    (st : State.t) (row : Row) (frame_no : Z) (ts : Qc) :
  _safe_int py_int (get row "frame.number") = Some frame_no ->
  _safe_float py_float (get row "frame.time_epoch") = Some ts ->
  address row "ip.src" "ipv6.src" = ""
  \/ address row "ip.dst" "ipv6.dst" = "" ->
  let st' := loop_body py_int py_float sha1_hexdigest cap st row in
  State.first_ts st'
  = Some match State.first_ts st with
         | None => ts
         | Some first_ts => min_ts first_ts ts
         end
  /\ State.last_ts st'
     = Some match State.last_ts st with
            | None => ts
            | Some last_ts => max_ts last_ts ts
            end
  /\ State.sessions st' = State.sessions st
  /\ State.events st' = State.events st
  /\ forall w now pcap_path tshark_bin include_sha256 rows,
       let a := artifact_of w now pcap_path tshark_bin include_sha256
                  (read_rows py_int py_float sha1_hexdigest cap rows) in
       Pcap.first_ts (Artifact.pcap a)
       = fold_bound min_ts None (timestamps py_int py_float rows)
       /\ Pcap.last_ts (Artifact.pcap a)
          = fold_bound max_ts None (timestamps py_int py_float rows).
Proof.
  intros Hf Ht Ha st'. subst st'.
  rewrite (loop_body_unaddressed _ _ _ _ _ _ _ _
             (stamped_Some _ _ _ _ _ Hf Ht) (addressed_false _ Ha)).
  repeat (split; [reflexivity|]).
  intros w now pcap_path tshark_bin include_sha256 rows. simpl.
  apply (fold_loop_body_bounds py_int py_float sha1_hexdigest cap
           rows initial_state).
Qed.

(** Frame 3 of the sample capture, at second 99, lowers the first
    timestamp of the capture from 100 to 99. *)
Lemma unaddressed_row_moves_time_bounds_witness :
  let st := read_rows decimal_int decimal_float plain_digest 8
              (firstn 2 sample_rows) in
  let st' := loop_body decimal_int decimal_float plain_digest 8 st
               (nth 2 sample_rows []) in
  State.first_ts st = Some (Q2Qc 100)
  /\ State.first_ts st' = Some (min_ts (Q2Qc 100) (Q2Qc 99))
  /\ State.sessions st' = State.sessions st.
Proof.
  pose proof (unaddressed_row_moves_time_bounds decimal_int decimal_float
                plain_digest 8
                (read_rows decimal_int decimal_float plain_digest 8
                   (firstn 2 sample_rows))
                (nth 2 sample_rows []) 3 (Q2Qc 99)
                eq_refl eq_refl (or_introl eq_refl)) as [H1 [_ [H3 _]]].
  split; [reflexivity|]. split; [exact H1 | exact H3].
Defined.

(** ** Stable sorting *)

Section StableSort.
Context {A : Type} (lt : A -> A -> bool).

(** [le x y]: [y] is not strictly before [x]. *)
Variable le : A -> A -> Prop.
Hypothesis le_of_lt : forall x y, lt x y = true -> le x y.
Hypothesis le_of_not_lt : forall x y, lt y x = false -> le x y.
Hypothesis le_trans : forall x y z, le x y -> le y z -> le x z.

Lemma insert_sorted_StronglySorted x l :
  StronglySorted le l -> StronglySorted le (insert_sorted lt x l).
Proof.
  induction 1 as [|y l Hl IH Hy]; simpl.
  - repeat constructor.
  - destruct (lt y x) eqn:E.
    + constructor; [exact IH|].
      eapply Permutation_Forall; [apply insert_sorted_perm|].
      constructor; [apply le_of_lt, E | exact Hy].
    + assert (Hxy : le x y) by apply le_of_not_lt, E.
      constructor; [constructor; assumption|].
      constructor; [exact Hxy|].
      eapply Forall_impl; [|exact Hy].
      intros z Hz. eapply le_trans; eassumption.
Qed.

Lemma sorted_StronglySorted l : StronglySorted le (sorted lt l).
Proof.
  induction l as [|x l IH]; simpl.
  - constructor.
  - apply insert_sorted_StronglySorted, IH.
Qed.

(** Stability: the elements of one key class — a class [p] no member of
    which is strictly before another — come out in the order they went
    in. *)
Section Class.
Variable p : A -> bool.
Hypothesis p_class : forall x y, p x = true -> p y = true -> lt y x = false.

Lemma insert_sorted_filter x l :
  filter p (insert_sorted lt x l) = filter p (x :: l).
Proof.
  induction l as [|y l IH]; [reflexivity|].
  simpl insert_sorted. destruct (lt y x) eqn:E; [|reflexivity].
  simpl filter in *. rewrite IH.
  destruct (p x) eqn:Ex, (p y) eqn:Ey; try reflexivity.
  rewrite (p_class x y Ex Ey) in E. discriminate E.
Qed.

Lemma sorted_filter l : filter p (sorted lt l) = filter p l.
Proof.
  induction l as [|x l IH]; [reflexivity|].
  simpl sorted. rewrite insert_sorted_filter. simpl. rewrite IH.
  reflexivity.
Qed.
End Class.
End StableSort.

(** ** Timeline *)

Section Timeline.
Variable py_int : string -> option Z.
Variable py_float : string -> option Qc.
Variable sha1_hexdigest : string -> string.
Variable cap : Z.

#[local] Abbreviation body :=
  (loop_body py_int py_float sha1_hexdigest cap).
#[local] Abbreviation emitted_by :=
  (row_events py_int py_float sha1_hexdigest).

Lemma loop_body_events st row :
  State.events (body st row) = (State.events st ++ emitted_by row)%list.
Proof.
  unfold row_events.
  destruct (stamped py_int py_float row) as [[frame_no ts]|] eqn:Es.
  - destruct (addressed row) eqn:Ea.
    + destruct (loop_body_ingested py_int py_float sha1_hexdigest cap
                  st row frame_no ts Es Ea) as [session [-> _]].
      simpl. unfold row_events. rewrite Es, Ea. reflexivity.
    + rewrite (loop_body_unaddressed _ _ _ _ _ _ _ _ Es Ea). simpl.
      rewrite app_nil_r. reflexivity.
  - rewrite (loop_body_unstamped _ _ _ _ _ _ Es). simpl.
    rewrite app_nil_r. reflexivity.
Qed.

Lemma fold_loop_body_events rows st :
  State.events (fold_left body rows st)
  = (State.events st ++ flat_map emitted_by rows)%list.
Proof.
  revert st. induction rows as [|row rows IH]; intros st; simpl.
  - rewrite app_nil_r. reflexivity.
  - rewrite IH, loop_body_events, <- app_assoc. reflexivity.
Qed.
End Timeline.

Definition ts_le (e1 e2 : TimelineEvent.t) : Prop :=
  (TimelineEvent.ts e1 <= TimelineEvent.ts e2)%Qc.

(** The events stamped with the instant [t]. *)
Definition at_ts (t : Qc) (e : TimelineEvent.t) : bool :=
  Qc_eq_bool (TimelineEvent.ts e) t.

Lemma at_ts_true t e : at_ts t e = true -> TimelineEvent.ts e = t.
Proof. apply Qc_eq_bool_correct. Qed.

Lemma timeline_of_sorted events :
  StronglySorted ts_le (timeline_of events).
Proof.
  apply sorted_StronglySorted; unfold ts_le, event_lt.
  - intros x y H. apply Qclt_le_weak, Qc_ltb_lt, H.
  - intros x y H. apply Qc_ltb_ge, H.
  - intros x y z. apply Qcle_trans.
Qed.

Lemma timeline_of_stable t events :
  filter (at_ts t) (timeline_of events) = filter (at_ts t) events.
Proof.
  apply sorted_filter. intros x y Hx Hy. unfold event_lt.
  rewrite (at_ts_true _ _ Hx), (at_ts_true _ _ Hy).
  apply Qc_ltb_ge, Qcle_refl.
Qed.

Lemma at_ts_refl e : at_ts (TimelineEvent.ts e) e = true.
Proof.
  unfold at_ts, Qc_eq_bool.
  destruct (Qc_eq_dec (TimelineEvent.ts e) (TimelineEvent.ts e));
    [reflexivity | congruence].
Qed.

(** Ascending order and the order within every class of equal timestamps
    leave no choice: two such arrangements of the same events are the same
    list.  So [timeline_of] is what any stable sort by timestamp returns. *)
Lemma stable_timeline_unique l1 : forall l2,
  Permutation l1 l2 ->
  StronglySorted ts_le l1 -> StronglySorted ts_le l2 ->
  (forall t, filter (at_ts t) l1 = filter (at_ts t) l2) ->
  l1 = l2.
Proof.
  induction l1 as [|x l1 IH]; intros l2 Hp H1 H2 Hf.
  - apply Permutation_nil in Hp. congruence.
  - destruct l2 as [|y l2];
      [apply Permutation_sym, Permutation_nil in Hp; discriminate Hp|].
    inversion H1 as [|? ? H1' Hx]; subst.
    inversion H2 as [|? ? H2' Hy]; subst.
    assert (Ets : TimelineEvent.ts x = TimelineEvent.ts y).
    { apply Qcle_antisym.
      - assert (Hin : In y (x :: l1))
          by (eapply Permutation_in;
              [apply Permutation_sym, Hp | left; reflexivity]).
        destruct Hin as [-> | Hin]; [apply Qcle_refl|].
        rewrite Forall_forall in Hx. apply Hx, Hin.
      - assert (Hin : In x (y :: l2))
          by (eapply Permutation_in; [apply Hp | left; reflexivity]).
        destruct Hin as [-> | Hin]; [apply Qcle_refl|].
        rewrite Forall_forall in Hy. apply Hy, Hin. }
    assert (Exy : x = y).
    { pose proof (Hf (TimelineEvent.ts x)) as H. simpl in H.
      rewrite at_ts_refl in H. rewrite Ets in H at 2.
      rewrite at_ts_refl in H. congruence. }
    subst y. f_equal. apply IH; auto.
    + eapply Permutation_cons_inv, Hp.
    + intros t. specialize (Hf t). simpl in Hf.
      destruct (at_ts t x); congruence.
Qed.


(** Two events of one instant keep their emission order, whatever lies
    between them. *)
Example timeline_of_ties :
  let e t f := TimelineEvent.mk (Q2Qc (inject_Z t)) "s" dns_query "q" f in
  timeline_of [e 5 1; e 3 2; e 5 3; e 3 4; e 1 5]
  = [e 1 5; e 3 2; e 3 4; e 5 1; e 5 3].
Proof. vm_compute. reflexivity. Qed.

(** ** Order of the session list *)

Lemma ascii_compare_lt_trans a b c :
  Ascii.compare a b = Lt -> Ascii.compare b c = Lt -> Ascii.compare a c = Lt.
Proof.
  unfold Ascii.compare. rewrite !N.compare_lt_iff. apply N.lt_trans.
Qed.

Lemma string_compare_lt_trans s : forall t u,
  String.compare s t = Lt -> String.compare t u = Lt ->
  String.compare s u = Lt.
Proof.
  induction s as [|a s IH]; intros [|b t] [|c u]; simpl;
    try congruence.
  destruct (Ascii.compare a b) eqn:Eab; try discriminate.
  - apply Ascii.compare_eq_iff in Eab. subst b.
    destruct (Ascii.compare a c); try congruence. apply IH.
  - intros _. destruct (Ascii.compare b c) eqn:Ebc; try discriminate.
    + apply Ascii.compare_eq_iff in Ebc. subst c. rewrite Eab. reflexivity.
    + rewrite (ascii_compare_lt_trans _ _ _ Eab Ebc). reflexivity.
Qed.

Lemma string_leb_trans s t u :
  String.leb s t = true -> String.leb t u = true -> String.leb s u = true.
Proof.
  unfold String.leb.
  destruct (String.compare s t) eqn:Est; try discriminate;
    destruct (String.compare t u) eqn:Etu; try discriminate; intros _ _.
  - apply String.compare_eq_iff in Est. subst t. rewrite Etu. reflexivity.
  - apply String.compare_eq_iff in Est. subst t. rewrite Etu. reflexivity.
  - apply String.compare_eq_iff in Etu. subst u. rewrite Est. reflexivity.
  - rewrite (string_compare_lt_trans _ _ _ Est Etu). reflexivity.
Qed.

(** [(first_ts, id)] ascending: earlier first timestamp, or the same first
    timestamp and an identifier that is not greater. *)
Definition session_le (s1 s2 : Session.t) : Prop :=
  (Session.first_ts s1 < Session.first_ts s2)%Qc
  \/ (Session.first_ts s1 = Session.first_ts s2
      /\ String.leb (Session.id s1) (Session.id s2) = true).

Lemma Qeq_bool_Qc (a b : Qc) : Qeq_bool a b = true <-> a = b.
Proof.
  rewrite Qeq_bool_iff. split.
  - apply Qc_is_canon.
  - intros ->. reflexivity.
Qed.

Lemma session_le_of_lt s1 s2 : session_lt s1 s2 = true -> session_le s1 s2.
Proof.
  unfold session_lt, session_le.
  destruct (Qeq_bool (Session.first_ts s1) (Session.first_ts s2)) eqn:E.
  - apply Qeq_bool_Qc in E. intros H. right. split; [exact E|].
    unfold String.ltb in H. unfold String.leb.
    destruct (String.compare (Session.id s1) (Session.id s2));
      congruence.
  - intros H. left. apply Qc_ltb_lt, H.
Qed.

Lemma session_le_of_not_lt s1 s2 :
  session_lt s2 s1 = false -> session_le s1 s2.
Proof.
  unfold session_lt, session_le.
  destruct (Qeq_bool (Session.first_ts s2) (Session.first_ts s1)) eqn:E.
  - apply Qeq_bool_Qc in E. intros H. right. split; [symmetry; exact E|].
    unfold String.ltb in H. unfold String.leb.
    rewrite String.compare_antisym.
    destruct (String.compare (Session.id s2) (Session.id s1));
      simpl; congruence.
  - intros H. apply Qc_ltb_ge in H.
    destruct (Qcle_lt_or_eq _ _ H) as [Hlt | Heq]; [left; exact Hlt|].
    rewrite Heq in E.
    assert (E' : Qeq_bool (Session.first_ts s2) (Session.first_ts s2) = true)
      by (apply Qeq_bool_Qc; reflexivity).
    congruence.
Qed.

Lemma session_le_trans s1 s2 s3 :
  session_le s1 s2 -> session_le s2 s3 -> session_le s1 s3.
Proof.
  unfold session_le. intros [H12 | [E12 L12]] [H23 | [E23 L23]].
  - left. eapply Qclt_trans; eassumption.
  - left. rewrite <- E23. exact H12.
  - left. rewrite E12. exact H23.
  - right. split; [congruence|]. eapply string_leb_trans; eassumption.
Qed.

Lemma sorted_sessions_ordered l :
  StronglySorted session_le (sorted session_lt l).
Proof.
  apply sorted_StronglySorted.
  - apply session_le_of_lt.
  - apply session_le_of_not_lt.
  - apply session_le_trans.
Qed.

(** ** Reproducible artifact *)

(** Everything the artifact holds besides [generated_at]. *)
Definition without_generated_at (a : Artifact.t)
    : Z * Pcap.t * Tooling.t * list Session.t * list TimelineEvent.t :=
  (Artifact.schema_version a, Artifact.pcap a, Artifact.tooling a,
   Artifact.sessions a, Artifact.timeline a).

Section Reproducible.
Variable py_int : string -> option Z.
Variable py_float : string -> option Qc.
Variable sha1_hexdigest : string -> string.

#[local] Abbreviation analyze :=
  (analyze_pcap py_int py_float sha1_hexdigest).

Lemma analyze_pcap_artifact_of w now pcap_path tshark_path max_packets cap
    include_sha256 tshark_bin rows stderr :
  World.isfile w pcap_path = true ->
  _resolve_tshark w tshark_path = Return tshark_bin ->
  World.run w (cmd_of tshark_bin pcap_path max_packets)
    = (rows, stderr, 0) ->
  analyze w now pcap_path tshark_path max_packets cap include_sha256
  = Return (artifact_of w now pcap_path tshark_bin include_sha256
              (read_rows py_int py_float sha1_hexdigest cap rows)).
Proof.
  intros Hf Ht Hr. unfold analyze_pcap. rewrite Hf, Ht. simpl.
  rewrite Hr. reflexivity.
Qed.

Lemma analyze_pcap_isfile w now pcap_path tshark_path max_packets cap
    include_sha256 a :
  analyze w now pcap_path tshark_path max_packets cap include_sha256
    = Return a ->
  World.isfile w pcap_path = true.
Proof.
  unfold analyze_pcap. destruct (World.isfile w pcap_path);
    [reflexivity | discriminate].
Qed.

(** A second run in the same world, at another reading of the clock and
    with another choice about hashing. *)
Lemma analyze_pcap_again w now pcap_path tshark_path max_packets cap
    include_sha256 a now' include_sha256' :
  analyze w now pcap_path tshark_path max_packets cap include_sha256
    = Return a ->
  exists tshark_bin st,
    a = artifact_of w now pcap_path tshark_bin include_sha256 st
    /\ analyze w now' pcap_path tshark_path max_packets cap include_sha256'
       = Return (artifact_of w now' pcap_path tshark_bin include_sha256' st).
Proof.
  intros H. pose proof (analyze_pcap_isfile _ _ _ _ _ _ _ _ H) as Hf.
  destruct (analyze_pcap_Return _ _ _ _ _ _ _ _ _ _ _ H)
    as [tshark_bin [rows [stderr [Ht [Hr ->]]]]].
  exists tshark_bin, (read_rows py_int py_float sha1_hexdigest cap rows).
  split; [reflexivity|].
  eapply analyze_pcap_artifact_of; eassumption.
Qed.
End Reproducible.

Definition sample_artifact (now : string) (include_sha256 : bool)
    : Artifact.t :=
  artifact_of sample_world now "trace.pcap" "/usr/bin/tshark" include_sha256
    (sample_state 8).



(** ** Skipped hashing *)

(** Everything the artifact holds besides the hash of the file. *)
Definition without_sha256 (a : Artifact.t) :=
  let p := Artifact.pcap a in
  (Artifact.schema_version a, Artifact.generated_at a,
   (Pcap.path p, Pcap.file_name p, Pcap.size_bytes p,
    Pcap.packets_analyzed p, Pcap.first_ts p, Pcap.last_ts p),
   Artifact.tooling a, Artifact.sessions a, Artifact.timeline a).

(** C9: when hashing is skipped the run returns its artifact with the
    hash field absent ([None]), not some made-up text, and every other
    field is what the run with hashing records, which differs only by
    holding the digest of the file in that field. *)
Theorem skipped_hash_is_absent
    (py_int : string -> option Z) (py_float : string -> option Qc)
    (sha1_hexdigest : string -> string)
    (w : World.t) (now pcap_path : string) (tshark_path : option string)
    (max_packets : option Z) (cap : Z) (a : Artifact.t) :
  analyze_pcap py_int py_float sha1_hexdigest w now pcap_path tshark_path
    max_packets cap false = Return a ->
  Pcap.sha256 (Artifact.pcap a) = None
  /\ exists a',
       analyze_pcap py_int py_float sha1_hexdigest w now pcap_path
         tshark_path max_packets cap true = Return a'
       /\ Pcap.sha256 (Artifact.pcap a')
          = Some (World.sha256_file w pcap_path)
       /\ without_sha256 a = without_sha256 a'.
Proof.
  intros H.
  destruct (analyze_pcap_again py_int py_float sha1_hexdigest _ _ _ _ _ _ _ _
              now true H) as [tshark_bin [st [-> H']]].
  split; [reflexivity|].
  eexists. split; [exact H'|]. split; reflexivity.
Qed.

Lemma skipped_hash_is_absent_witness :
  Pcap.sha256
    (Artifact.pcap (sample_artifact "2026-01-01T00:00:00+00:00" false))
  = None
  /\ exists a',
       sample_run "2026-01-01T00:00:00+00:00" 8 true = Return a'
       /\ Pcap.sha256 (Artifact.pcap a')
          = Some "9f86d081884c7d659a2feaa0c55ad015"
       /\ without_sha256 (sample_artifact "2026-01-01T00:00:00+00:00" false)
          = without_sha256 a'.
Proof.
  apply (skipped_hash_is_absent decimal_int decimal_float plain_digest
           sample_world "2026-01-01T00:00:00+00:00" "trace.pcap" None None 8
           (sample_artifact "2026-01-01T00:00:00+00:00" false)).
  vm_compute. reflexivity.
Defined.

(** ** Arrival order *)

Lemma min_int_swap a b c :
  min_int (min_int a b) c = min_int (min_int a c) b.
Proof.
  unfold min_int.
  repeat match goal with
         | |- context [?x <? ?y] =>
             is_var x; is_var y; destruct (Z.ltb_spec x y)
         end; lia.
Qed.

Lemma max_int_swap a b c :
  max_int (max_int a b) c = max_int (max_int a c) b.
Proof.
  unfold max_int.
  repeat match goal with
         | |- context [?x <? ?y] =>
             is_var x; is_var y; destruct (Z.ltb_spec x y)
         end; lia.
Qed.

Lemma min_int_first a b : min_int (min_int a a) b = min_int (min_int b b) a.
Proof.
  unfold min_int.
  repeat match goal with
         | |- context [?x <? ?y] =>
             is_var x; is_var y; destruct (Z.ltb_spec x y)
         end; lia.
Qed.

Lemma max_int_first a b : max_int (max_int a a) b = max_int (max_int b b) a.
Proof.
  unfold max_int.
  repeat match goal with
         | |- context [?x <? ?y] =>
             is_var x; is_var y; destruct (Z.ltb_spec x y)
         end; lia.
Qed.

Lemma min_ts_first a b : min_ts (min_ts a a) b = min_ts (min_ts b b) a.
Proof. rewrite !min_ts_idem. apply min_ts_comm. Qed.

Lemma max_ts_first a b : max_ts (max_ts a a) b = max_ts (max_ts b b) a.
Proof. rewrite !max_ts_idem. apply max_ts_comm. Qed.

(** The transport label is the head of the session key. *)
Lemma session_key_of_transport t a b t' a' b' :
  session_key_of t a b = session_key_of t' a' b' -> t = t'.
Proof.
  unfold session_key_of.
  destruct t, t'; simpl; intros H; try reflexivity; discriminate H.
Qed.

(** The order-independent part of a session: identifier, transport, time
    bounds, packet and byte counts, frame bounds. *)
Definition Summary : Type := string * Transport * Qc * Qc * Z * Z * Z * Z.

Definition summary (s : Session.t) : Summary :=
  (Session.id s, Session.transport s, Session.first_ts s, Session.last_ts s,
   Session.packet_count s, Session.byte_count s,
   Evidence.first_frame (Session.evidence s),
   Evidence.last_frame (Session.evidence s)).

(** [count_packet], seen on the summary. *)
Definition bump (frame_no : Z) (ts : Qc) (frame_len : option Z)
    (x : Summary) : Summary :=
  let '(id, transport, first_ts, last_ts, packets, bytes, first_frame,
        last_frame) := x in
  (id, transport, min_ts first_ts ts, max_ts last_ts ts, packets + 1,
   bytes + match frame_len with None => 0 | Some n => n end,
   min_int first_frame frame_no, max_int last_frame frame_no).

Lemma summary_count_packet cap s frame_no ts frame_len :
  summary (count_packet cap s frame_no ts frame_len)
  = bump frame_no ts frame_len (summary s).
Proof. reflexivity. Qed.

Lemma summary_counters s s' :
  counters s = counters s' -> summary s = summary s'.
Proof.
  unfold counters, summary. intros H.
  injection H as -> -> -> -> -> -> ->. reflexivity.
Qed.

Lemma bump_swap f1 t1 n1 f2 t2 n2 x :
  bump f2 t2 n2 (bump f1 t1 n1 x) = bump f1 t1 n1 (bump f2 t2 n2 x).
Proof.
  destruct x as [[[[[[[i tr] fi] la] pc] bc] ff] lf]. simpl.
  rewrite (min_ts_swap fi t1 t2), (max_ts_swap la t1 t2),
    (min_int_swap ff f1 f2), (max_int_swap lf f1 f2).
  match goal with
  | |- (_, ?b1, _, _) = (_, ?b2, _, _) => replace b1 with b2 by lia
  end.
  reflexivity.
Qed.

Lemma bump_first i tr f1 t1 n1 f2 t2 n2 :
  bump f2 t2 n2 (bump f1 t1 n1 (i, tr, t1, t1, 0, 0, f1, f1))
  = bump f1 t1 n1 (bump f2 t2 n2 (i, tr, t2, t2, 0, 0, f2, f2)).
Proof.
  simpl.
  rewrite (min_ts_first t1 t2), (max_ts_first t1 t2),
    (min_int_first f1 f2), (max_int_first f1 f2).
  match goal with
  | |- (_, ?b1, _, _) = (_, ?b2, _, _) => replace b1 with b2 by lia
  end.
  reflexivity.
Qed.

(** What the rule engine makes of a session depends on its summary only. *)
Definition aggregates (s : Session.t) :=
  (Session.id s, Session.transport s, Session.packet_count s,
   Session.byte_count s, Session.first_ts s, Session.last_ts s,
   Session.duration_seconds s, Session.rule_flags s).

Lemma aggregates_rule_engine s s' :
  summary s = summary s' ->
  aggregates (rule_engine s) = aggregates (rule_engine s').
Proof.
  unfold summary, aggregates, rule_engine. simpl. intros H.
  injection H as -> -> -> -> -> -> _ _. reflexivity.
Qed.

Section ArrivalOrder.
Variable py_int : string -> option Z.
Variable py_float : string -> option Qc.
Variable sha1_hexdigest : string -> string.
Variable cap : Z.

#[local] Abbreviation body := (loop_body py_int py_float sha1_hexdigest cap).
#[local] Abbreviation loop := (read_rows py_int py_float sha1_hexdigest cap).

(** The summaries of the stored sessions, by session key. *)
Definition Table : Type := string -> option Summary.

Definition table (st : State.t) : Table :=
  fun key => option_map summary (dict_get (State.sessions st) key).

(** The summary of a session before its first packet. *)
Definition fresh (row : Row) (frame_no : Z) (ts : Qc) : Summary :=
  (session_id_of sha1_hexdigest (key_of py_int row), fst (flow_of py_int row),
   ts, ts, 0, 0, frame_no, frame_no).

(** The loop body, seen on the table of summaries. *)
Definition ingest (row : Row) (T : Table) : Table :=
  match stamped py_int py_float row with
  | Some (frame_no, ts) =>
      if addressed row then
        fun key =>
          if String.eqb (key_of py_int row) key then
            Some (bump frame_no ts (_safe_int py_int (get row "frame.len"))
                    match T (key_of py_int row) with
                    | Some x => x
                    | None => fresh row frame_no ts
                    end)
          else T key
      else T
  | None => T
  end.

Lemma table_loop_body st row key :
  table (body st row) key = ingest row (table st) key.
Proof.
  unfold ingest, table.
  destruct (stamped py_int py_float row) as [[frame_no ts]|] eqn:Es.
  - destruct (addressed row) eqn:Ea.
    + destruct (loop_body_ingested py_int py_float sha1_hexdigest cap
                  st row frame_no ts Es Ea) as [session [-> Hc]].
      simpl. rewrite dict_get_set.
      destruct (String.eqb (key_of py_int row) key); [|reflexivity].
      simpl. f_equal. rewrite (summary_counters _ _ Hc).
      rewrite summary_count_packet. f_equal.
      unfold session_for, fresh.
      destruct (dict_get (State.sessions st) (key_of py_int row)); simpl;
        [reflexivity|].
      destruct (flow_of py_int row) as [transport [a b]]. reflexivity.
    + rewrite (loop_body_unaddressed _ _ _ _ _ _ _ _ Es Ea). reflexivity.
  - rewrite (loop_body_unstamped _ _ _ _ _ _ Es). reflexivity.
Qed.

Definition same_table (T T' : Table) : Prop := forall key, T key = T' key.

Lemma ingest_same_table row T T' :
  same_table T T' -> same_table (ingest row T) (ingest row T').
Proof.
  unfold same_table, ingest. intros H key.
  destruct (stamped py_int py_float row) as [[frame_no ts]|]; [|apply H].
  destruct (addressed row); [|apply H].
  rewrite (H (key_of py_int row)), (H key). reflexivity.
Qed.

Lemma flow_of_same_key row row' :
  key_of py_int row = key_of py_int row' ->
  fst (flow_of py_int row) = fst (flow_of py_int row').
Proof.
  unfold key_of.
  destruct (flow_of py_int row) as [t [a b]].
  destruct (flow_of py_int row') as [t' [a' b']].
  apply session_key_of_transport.
Qed.

(** Two rows are folded into the table with the same result in either
    order. *)
Lemma ingest_swap row row' T :
  same_table (ingest row' (ingest row T)) (ingest row (ingest row' T)).
Proof.
  unfold same_table, ingest. intros key.
  destruct (stamped py_int py_float row) as [[f ts]|]; [|reflexivity].
  destruct (stamped py_int py_float row') as [[f' ts']|]; [|reflexivity].
  destruct (addressed row); [|reflexivity].
  destruct (addressed row'); [|reflexivity].
  destruct (String.eqb (key_of py_int row) (key_of py_int row')) eqn:E.
  - apply String.eqb_eq in E.
    unfold fresh. rewrite <- (flow_of_same_key _ _ E), <- E.
    rewrite String.eqb_refl.
    destruct (String.eqb (key_of py_int row) key); [|reflexivity].
    f_equal. destruct (T (key_of py_int row)) as [x|].
    + apply bump_swap.
    + apply bump_first.
  - rewrite String.eqb_sym in E. rewrite E.
    destruct (String.eqb (key_of py_int row) key) eqn:E1;
      destruct (String.eqb (key_of py_int row') key) eqn:E2;
      try reflexivity.
    apply String.eqb_eq in E1, E2. apply String.eqb_neq in E. congruence.
Qed.

Definition ingest_all (rows : list Row) (T : Table) : Table :=
  fold_left (fun T row => ingest row T) rows T.

Lemma ingest_all_same_table rows : forall T T',
  same_table T T' -> same_table (ingest_all rows T) (ingest_all rows T').
Proof.
  induction rows as [|row rows IH]; intros T T' H; simpl.
  - exact H.
  - apply IH, ingest_same_table, H.
Qed.

Lemma same_table_trans T1 T2 T3 :
  same_table T1 T2 -> same_table T2 T3 -> same_table T1 T3.
Proof. unfold same_table. intros H1 H2 key. rewrite H1. apply H2. Qed.

Lemma ingest_all_Permutation rows rows' :
  Permutation rows rows' ->
  forall T T', same_table T T' ->
               same_table (ingest_all rows T) (ingest_all rows' T').
Proof.
  induction 1
    as [|row rows rows' _ IH|row row' rows|rows1 rows2 rows3 _ IH1 _ IH2];
    intros T T' H.
  - exact H.
  - simpl. apply IH, ingest_same_table, H.
  - simpl. apply ingest_all_same_table.
    eapply same_table_trans; [apply ingest_swap|].
    apply ingest_same_table, ingest_same_table, H.
  - eapply same_table_trans; [apply IH1, H|].
    apply IH2. intros key. reflexivity.
Qed.

Lemma table_fold_loop_body rows : forall st,
  same_table (table (fold_left body rows st)) (ingest_all rows (table st)).
Proof.
  induction rows as [|row rows IH]; intros st; simpl.
  - intros key. reflexivity.
  - eapply same_table_trans; [apply IH|].
    apply ingest_all_same_table. intros key. apply table_loop_body.
Qed.

(** The summaries by key do not depend on the order of the rows. *)
Lemma table_Permutation rows rows' :
  Permutation rows rows' -> same_table (table (loop rows)) (table (loop rows')).
Proof.
  intros H.
  eapply same_table_trans; [apply table_fold_loop_body|].
  eapply same_table_trans;
    [apply (ingest_all_Permutation _ _ H); intros key; reflexivity|].
  intros key. symmetry. apply table_fold_loop_body.
Qed.
End ArrivalOrder.

(** ** Dictionaries with the same content *)

Section DictContent.
Context {V W : Type} (f : V -> W).
Implicit Types (d : list (string * V)) (k : string) (v : V).

Definition keys d : list string := map fst d.

Lemma In_keys_dict_set d k v k' :
  In k' (keys (dict_set d k v)) -> k' = k \/ In k' (keys d).
Proof.
  induction d as [|[k0 v0] d IH]; simpl.
  - intros [<- | []]. auto.
  - destruct (String.eqb k0 k); simpl; intros [H | H]; auto.
    destruct (IH H); auto.
Qed.

Lemma NoDup_keys_dict_set d k v :
  NoDup (keys d) -> NoDup (keys (dict_set d k v)).
Proof.
  induction d as [|[k0 v0] d IH]; simpl; intros H.
  - repeat constructor. intros [].
  - inversion H as [|? ? Hk0 Hd]; subst.
    destruct (String.eqb k0 k) eqn:E; simpl.
    + constructor; assumption.
    + constructor; [|apply IH, Hd].
      intros Hin. apply In_keys_dict_set in Hin.
      destruct Hin as [-> | Hin]; [|contradiction].
      rewrite String.eqb_refl in E. discriminate E.
Qed.

Lemma dict_get_None d k : ~ In k (keys d) -> dict_get d k = None.
Proof.
  induction d as [|[k0 v0] d IH]; simpl; intros H; [reflexivity|].
  destruct (String.eqb k0 k) eqn:E.
  - apply String.eqb_eq in E. elim H. auto.
  - apply IH. auto.
Qed.

(** Under distinct keys, the bindings of a dictionary are what [dict_get]
    finds. *)
Lemma In_dict_get d k v :
  NoDup (keys d) -> (In (k, v) d <-> dict_get d k = Some v).
Proof.
  induction d as [|[k0 v0] d IH]; simpl; intros H.
  - split; [intros [] | discriminate].
  - inversion H as [|? ? Hk0 Hd]; subst.
    destruct (String.eqb k0 k) eqn:E.
    + apply String.eqb_eq in E. subst k0. split.
      * intros [[= ->] | Hin]; [reflexivity|].
        elim Hk0. apply (in_map fst) in Hin. exact Hin.
      * intros [= ->]. auto.
    + apply String.eqb_neq in E. rewrite <- (IH Hd). split.
      * intros [[= ? ?] | Hin]; [contradiction | exact Hin].
      * auto.
Qed.

Definition images d : list (string * W) :=
  map (fun kv => (fst kv, f (snd kv))) d.

Lemma keys_images d : map fst (images d) = keys d.
Proof. unfold images, keys. rewrite map_map. reflexivity. Qed.

Lemma NoDup_images d : NoDup (keys d) -> NoDup (images d).
Proof.
  intros H. rewrite <- keys_images in H. eapply NoDup_map_inv, H.
Qed.

Lemma In_images d k x :
  NoDup (keys d) ->
  (In (k, x) (images d) <-> option_map f (dict_get d k) = Some x).
Proof.
  intros H. unfold images. rewrite in_map_iff. split.
  - intros [[k' v] [[= -> <-] Hin]]. simpl.
    apply (In_dict_get _ _ _ H) in Hin. rewrite Hin. reflexivity.
  - destruct (dict_get d k) as [v|] eqn:E; [|discriminate].
    intros [= <-]. exists (k, v). split; [reflexivity|].
    apply (In_dict_get _ _ _ H), E.
Qed.

(** Two dictionaries that answer every key alike hold the same values, up
    to the order of insertion. *)
Lemma same_content_Permutation d d' :
  NoDup (keys d) -> NoDup (keys d') ->
  (forall k, option_map f (dict_get d k) = option_map f (dict_get d' k)) ->
  Permutation (map f (dict_values d)) (map f (dict_values d')).
Proof.
  intros H H' Hsame.
  assert (Hp : Permutation (images d) (images d')).
  { apply NoDup_Permutation; auto using NoDup_images.
    intros [k x]. rewrite (In_images _ _ _ H), (In_images _ _ _ H'), Hsame.
    reflexivity. }
  apply (Permutation_map snd) in Hp.
  unfold images, dict_values in *. rewrite !map_map in *. exact Hp.
Qed.
End DictContent.

Section DistinctKeys.
Variable py_int : string -> option Z.
Variable py_float : string -> option Qc.
Variable sha1_hexdigest : string -> string.
Variable cap : Z.

#[local] Abbreviation body := (loop_body py_int py_float sha1_hexdigest cap).
#[local] Abbreviation loop := (read_rows py_int py_float sha1_hexdigest cap).

Lemma loop_body_keys st row :
  NoDup (keys (State.sessions st)) ->
  NoDup (keys (State.sessions (body st row))).
Proof.
  intros H.
  destruct (stamped py_int py_float row) as [[frame_no ts]|] eqn:Es.
  - destruct (addressed row) eqn:Ea.
    + destruct (loop_body_ingested py_int py_float sha1_hexdigest cap
                  st row frame_no ts Es Ea) as [session [-> _]].
      simpl. apply NoDup_keys_dict_set, H.
    + rewrite (loop_body_unaddressed _ _ _ _ _ _ _ _ Es Ea). exact H.
  - rewrite (loop_body_unstamped _ _ _ _ _ _ Es). exact H.
Qed.

Lemma read_rows_keys rows : NoDup (keys (State.sessions (loop rows))).
Proof.
  unfold read_rows.
  assert (H : NoDup (keys (State.sessions initial_state))) by constructor.
  revert H. generalize initial_state.
  induction rows as [|row rows IH]; intros st H; simpl.
  - exact H.
  - apply IH, loop_body_keys, H.
Qed.
End DistinctKeys.

(** The finalized session stored under a session key. *)
Definition finalized (st : State.t) (key : string) : option Session.t :=
  option_map rule_engine (dict_get (State.sessions st) key).

(** The session list of the artifact assembled from a state. *)
Definition assembled_sessions (st : State.t) : list Session.t :=
  sorted session_lt (map rule_engine (dict_values (State.sessions st))).



(** ** The two directions of a conversation *)

(** Frames 1 and 2 of the sample capture are the two directions of one
    conversation: one session, two packets, endpoints in canonical order. *)
Example both_directions_one_session :
  map (fun ks => (fst ks, Session.endpoints (snd ks),
                  Session.packet_count (snd ks)))
    (State.sessions
       (read_rows decimal_int decimal_float plain_digest 8
          (firstn 2 sample_rows)))
  = [("tcp:10.0.0.1:51000->93.184.216.34:443",
      (mkEndpoint "10.0.0.1" (Some 51000),
       mkEndpoint "93.184.216.34" (Some 443)), 2)].
Proof. vm_compute. reflexivity. Qed.

(** With the port text [-1] against an absent port on one address, the two
    directions are stored as two sessions. *)
Example sentinel_port_splits_session :
  let forth := packet "1" "100" "60" "10.0.0.1" "10.0.0.1" "" "-1" [] in
  let back := packet "2" "101" "60" "10.0.0.1" "10.0.0.1" "-1" "" [] in
  map (fun ks => (fst ks, Session.packet_count (snd ks)))
    (State.sessions
       (read_rows decimal_int decimal_float plain_digest 8 [forth; back]))
  = [("tcp:10.0.0.1:None->10.0.0.1:-1", 1);
     ("tcp:10.0.0.1:-1->10.0.0.1:None", 1)].
Proof. vm_compute. reflexivity. Qed.

(** * Further properties of the engine *)

(** ** The loop body, exactly *)

Section LoopView.
Variable py_int : string -> option Z.
Variable py_float : string -> option Qc.
Variable sha1_hexdigest : string -> string.
Variable cap : Z.

#[local] Abbreviation body := (loop_body py_int py_float sha1_hexdigest cap).
#[local] Abbreviation loop := (read_rows py_int py_float sha1_hexdigest cap).

(** What a row adds to its session besides the counters: the protocol
    chain and the observations. *)
Definition observe (row : Row) (frame_no : Z) (ts : Qc) (session : Session.t)
    : Session.t :=
  let chain := text row "frame.protocols" in
  let session :=
    if truthy chain then count_chain session chain else session in
  let dns_qry := text row "dns.qry.name" in
  let session :=
    if truthy dns_qry
    then add_dns_query session (DnsQuery.mk dns_qry ts frame_no)
    else session in
  let http_method := text row "http.request.method" in
  let http_host := text row "http.host" in
  let http_uri := text row "http.request.uri" in
  let session :=
    if truthy http_method && (truthy http_host || truthy http_uri)
    then add_http_request session
           (HttpRequest.mk http_method (or_None http_host)
              (or_None http_uri) ts frame_no)
    else session in
  let sni := text row "tls.handshake.extensions_server_name" in
  if truthy sni then add_tls_sni session (TlsSni.mk sni ts frame_no)
  else session.

(** The session a row leaves under its key. *)
Definition session_after (st : State.t) (row : Row) (frame_no : Z) (ts : Qc)
    : Session.t :=
  observe row frame_no ts
    (count_packet cap
       (session_for py_int sha1_hexdigest st row frame_no ts)
       frame_no ts (_safe_int py_int (get row "frame.len"))).

(** The loop body as one case analysis on the row. *)
Definition loop_view (st : State.t) (row : Row) : State.t :=
  match stamped py_int py_float row with
  | Some (frame_no, ts) =>
      if addressed row then
        State.mk
          (dict_set (State.sessions st) (key_of py_int row)
             (session_after st row frame_no ts))
          (State.events st ++ row_events py_int py_float sha1_hexdigest row)
          (State.packet_count st + 1)
          (Some (first_ts_after st ts)) (Some (last_ts_after st ts))
      else
        State.mk (State.sessions st) (State.events st)
          (State.packet_count st + 1)
          (Some (first_ts_after st ts)) (Some (last_ts_after st ts))
  | None =>
      State.mk (State.sessions st) (State.events st)
        (State.packet_count st + 1) (State.first_ts st) (State.last_ts st)
  end.

Lemma loop_body_view st row : body st row = loop_view st row.
Proof.
  unfold loop_view.
  destruct (stamped py_int py_float row) as [[frame_no ts]|] eqn:Es.
  - destruct (addressed row) eqn:Ea.
    + unfold session_after, observe, row_events, session_for, key_of,
        flow_of.
      rewrite Es, Ea.
      unfold stamped, addressed, loop_body in *.
      destruct (_safe_int py_int (get row "frame.number")); [|discriminate].
      destruct (_safe_float py_float (get row "frame.time_epoch"));
        [|discriminate].
      injection Es as -> ->.
      rewrite <- negb_andb, Ea. cbv beta iota zeta.
      destruct (transport_of _ _ _ _) as [[transport src_port] dst_port].
      destruct (_canonical_pair _ _ _ _) as [a b].
      cbv beta iota zeta.
      destruct (truthy (text row "frame.protocols"));
        destruct (truthy (text row "dns.qry.name"));
        destruct (truthy (text row "http.request.method")
                  && (truthy (text row "http.host")
                      || truthy (text row "http.request.uri")));
        destruct (truthy (text row "tls.handshake.extensions_server_name"));
        cbv beta iota zeta;
        repeat rewrite <- app_assoc; simpl; rewrite ?app_nil_r;
        reflexivity.
    + apply (loop_body_unaddressed _ _ _ _ _ _ _ _ Es Ea).
  - apply (loop_body_unstamped _ _ _ _ _ _ Es).
Qed.

Lemma read_rows_snoc rows row : loop (rows ++ [row]) = body (loop rows) row.
Proof. unfold read_rows. rewrite fold_left_app. reflexivity. Qed.
End LoopView.

(** ** A session is the fold of its own packets *)

(** Frame number, timestamp and frame length of a packet. *)
Definition Packet : Type := Z * Qc * option Z.

Definition frame_of (p : Packet) : Z := fst (fst p).
Definition ts_of (p : Packet) : Qc := snd (fst p).
Definition len_of (p : Packet) : Z :=
  match snd p with None => 0 | Some n => n end.

Definition total_len (ps : list Packet) : Z :=
  fold_right (fun p acc => len_of p + acc) 0 ps.

Lemma total_len_app ps qs :
  total_len (ps ++ qs) = total_len ps + total_len qs.
Proof. induction ps as [|p ps IH]; simpl; [reflexivity|]. rewrite IH. lia. Qed.

Lemma dict_get_keys {V} (d : list (string * V)) k :
  In k (keys d) <-> exists v, dict_get d k = Some v.
Proof.
  induction d as [|[k0 v0] d IH]; simpl.
  - split; [intros [] | intros [v H]; discriminate H].
  - destruct (String.eqb k0 k) eqn:E.
    + apply String.eqb_eq in E. split; eauto.
    + apply String.eqb_neq in E. rewrite <- IH. split; [|auto].
      intros [H | H]; [contradiction | exact H].
Qed.

Lemma dict_get_In_pair {V} (d : list (string * V)) k v :
  dict_get d k = Some v -> In (k, v) d.
Proof.
  induction d as [|[k0 v0] d IH]; simpl; [discriminate|].
  destruct (String.eqb k0 k) eqn:E.
  - apply String.eqb_eq in E. intros [= ->]. subst. auto.
  - auto.
Qed.

Lemma firstn_snoc {A} (n : nat) (l : list A) (x : A) :
  firstn n (l ++ [x])
  = if (length l <? n)%nat then (firstn n l ++ [x])%list else firstn n l.
Proof.
  revert n. induction l as [|y l IH]; intros [|n]; simpl; try reflexivity.
  - rewrite firstn_nil. reflexivity.
  - rewrite IH. change (S (length l) <? S n)%nat with (length l <? n)%nat.
    destruct (length l <? n)%nat; reflexivity.
Qed.

Section PerKey.
Variable py_int : string -> option Z.
Variable py_float : string -> option Qc.
Variable sha1_hexdigest : string -> string.
Variable cap : Z.

#[local] Abbreviation body := (loop_body py_int py_float sha1_hexdigest cap).
#[local] Abbreviation loop := (read_rows py_int py_float sha1_hexdigest cap).

(** The session key and the packet of a row that reaches the aggregator. *)
Definition packet_of (row : Row) : option (string * Packet) :=
  match stamped py_int py_float row with
  | Some (frame_no, ts) =>
      if addressed row
      then Some (key_of py_int row,
                 (frame_no, ts, _safe_int py_int (get row "frame.len")))
      else None
  | None => None
  end.

(** The packets of one session key, in arrival order. *)
Definition packets_of (key : string) (rows : list Row) : list Packet :=
  flat_map (fun row =>
              match packet_of row with
              | Some (k, p) => if String.eqb k key then [p] else []
              | None => []
              end) rows.

Lemma packets_of_snoc key rows row :
  packets_of key (rows ++ [row])
  = (packets_of key rows ++ packets_of key [row])%list.
Proof. unfold packets_of. apply flat_map_app. Qed.

Lemma dict_get_loop_body st row key :
  dict_get (State.sessions (body st row)) key
  = match packet_of row with
    | Some (k, (frame_no, ts, _)) =>
        if String.eqb k key
        then Some (session_after py_int sha1_hexdigest cap st row frame_no ts)
        else dict_get (State.sessions st) key
    | None => dict_get (State.sessions st) key
    end.
Proof.
  rewrite loop_body_view. unfold loop_view, packet_of.
  destruct (stamped py_int py_float row) as [[frame_no ts]|];
    [|reflexivity].
  destruct (addressed row); [|reflexivity].
  simpl. apply dict_get_set.
Qed.

Lemma counters_observe row frame_no ts s :
  counters (observe row frame_no ts s) = counters s.
Proof.
  unfold observe.
  destruct (truthy (text row "frame.protocols"));
    destruct (truthy (text row "dns.qry.name"));
    destruct (truthy (text row "http.request.method")
              && (truthy (text row "http.host")
                  || truthy (text row "http.request.uri")));
    destruct (truthy (text row "tls.handshake.extensions_server_name"));
    reflexivity.
Qed.

(** Counts, byte total and evidence sample of a session against the list
    of its packets. *)
Definition folded (s : Session.t) (ps : list Packet) : Prop :=
  Session.packet_count s = Z.of_nat (length ps)
  /\ Session.byte_count s = total_len ps
  /\ Evidence.sample_frames (Session.evidence s)
     = firstn (Z.to_nat cap) (map frame_of ps).

Lemma folded_counters s s' ps :
  counters s = counters s' -> folded s ps -> folded s' ps.
Proof.
  unfold counters, folded. intros H.
  injection H as _ _ _ _ <- <- <-. auto.
Qed.

Lemma folded_first sid transport a b frame_no ts frame_len :
  folded (count_packet cap (new_session sid transport a b ts frame_no)
            frame_no ts frame_len)
    [(frame_no, ts, frame_len)].
Proof.
  unfold folded, count_packet, total_len, len_of. simpl.
  split; [reflexivity|]. split; [lia|].
  destruct (Z.ltb_spec 0 cap).
  - destruct (Z.to_nat cap) eqn:E; [lia|].
    simpl. rewrite firstn_nil. reflexivity.
  - replace (Z.to_nat cap) with 0%nat by lia. reflexivity.
Qed.

Lemma folded_next s ps frame_no ts frame_len :
  folded s ps ->
  folded (count_packet cap s frame_no ts frame_len)
    (ps ++ [(frame_no, ts, frame_len)]).
Proof.
  unfold folded, count_packet. simpl. intros [Hc [Hb Hs]].
  rewrite length_app, total_len_app, map_app. simpl map.
  rewrite firstn_snoc, Hc, Hb, Hs.
  unfold len_of, frame_of. simpl.
  split; [lia|]. split; [destruct frame_len; unfold len_of; simpl; lia|].
  rewrite length_firstn, length_map.
  destruct (Z.ltb_spec (Z.of_nat (Nat.min (Z.to_nat cap) (length ps))) cap);
    destruct (Nat.ltb_spec (length ps) (Z.to_nat cap));
    try reflexivity; lia.
Qed.

(** A relation between a session and the list of its packets that depends
    on the counters only, holds after the first packet and survives every
    further packet, holds under every key of the table; and the table
    holds nothing under a key that no packet has. *)
Section Related.
Variable R : Session.t -> list Packet -> Prop.
Hypothesis R_counters : forall s s' ps,
  counters s = counters s' -> R s ps -> R s' ps.
Hypothesis R_first : forall sid transport a b frame_no ts frame_len,
  R (count_packet cap (new_session sid transport a b ts frame_no)
       frame_no ts frame_len)
    [(frame_no, ts, frame_len)].
Hypothesis R_next : forall s ps frame_no ts frame_len,
  ps <> [] -> R s ps ->
  R (count_packet cap s frame_no ts frame_len)
    (ps ++ [(frame_no, ts, frame_len)]).

Lemma read_rows_per_key rows : forall key,
  match dict_get (State.sessions (loop rows)) key with
  | Some s => packets_of key rows <> [] /\ R s (packets_of key rows)
  | None => packets_of key rows = []
  end.
Proof.
  induction rows as [|row rows IH] using rev_ind; intros key.
  - reflexivity.
  - rewrite read_rows_snoc, dict_get_loop_body, packets_of_snoc.
    unfold packets_of at 2 4 6. simpl. rewrite app_nil_r.
    specialize (IH key).
    destruct (packet_of row) as [[k [[frame_no ts] frame_len]]|] eqn:Ep.
    + destruct (String.eqb k key) eqn:E.
      * apply String.eqb_eq in E. subst k.
        split; [intros H; apply app_eq_nil in H; destruct H; discriminate|].
        unfold session_after.
        eapply R_counters; [symmetry; apply counters_observe|].
        assert (Ek : key_of py_int row = key
                     /\ _safe_int py_int (get row "frame.len") = frame_len).
        { unfold packet_of in Ep.
          destruct (stamped py_int py_float row) as [[f t]|];
            [|discriminate].
          destruct (addressed row); [|discriminate].
          injection Ep as <- _ _ <-. auto. }
        destruct Ek as [Ek ->].
        unfold session_for. rewrite Ek.
        destruct (dict_get (State.sessions (loop rows)) key) as [s|].
        -- apply R_next; apply IH.
        -- rewrite IH. simpl.
           destruct (flow_of py_int row) as [transport [a b]].
           apply R_first.
      * rewrite app_nil_r. exact IH.
    + rewrite app_nil_r. exact IH.
Qed.

(** The same, over the stored pairs of key and session. *)
Lemma read_rows_related rows :
  Forall (fun ks => R (snd ks) (packets_of (fst ks) rows))
    (State.sessions (loop rows)).
Proof.
  apply Forall_forall. intros [key s] Hin. simpl.
  apply In_dict_get in Hin; [|apply read_rows_keys].
  pose proof (read_rows_per_key rows key) as H.
  rewrite Hin in H. apply H.
Qed.
End Related.

Lemma read_rows_folded rows :
  Forall (fun ks => folded (snd ks) (packets_of (fst ks) rows))
    (State.sessions (loop rows)).
Proof.
  apply read_rows_related.
  - apply folded_counters.
  - apply folded_first.
  - intros. apply folded_next. assumption.
Qed.
End PerKey.

Lemma min_int_min a b : min_int a b = Z.min a b.
Proof. unfold min_int. destruct (Z.ltb_spec b a); lia. Qed.

Lemma max_int_max a b : max_int a b = Z.max a b.
Proof. unfold max_int. destruct (Z.ltb_spec a b); lia. Qed.

(** The bounds of a session against the list of its packets: they enclose
    every packet and each is attained by one. *)
Definition tight (s : Session.t) (ps : list Packet) : Prop :=
  Forall (fun p =>
            (Session.first_ts s <= ts_of p)%Qc
            /\ (ts_of p <= Session.last_ts s)%Qc
            /\ Evidence.first_frame (Session.evidence s) <= frame_of p
            /\ frame_of p <= Evidence.last_frame (Session.evidence s)) ps
  /\ In (Session.first_ts s) (map ts_of ps)
  /\ In (Session.last_ts s) (map ts_of ps)
  /\ In (Evidence.first_frame (Session.evidence s)) (map frame_of ps)
  /\ In (Evidence.last_frame (Session.evidence s)) (map frame_of ps).

Lemma tight_counters s s' ps :
  counters s = counters s' -> tight s ps -> tight s' ps.
Proof.
  unfold counters, tight. intros H.
  injection H as _ _ <- <- _ _ <-. auto.
Qed.

Lemma tight_first cap sid transport a b frame_no ts frame_len :
  tight (count_packet cap (new_session sid transport a b ts frame_no)
           frame_no ts frame_len)
    [(frame_no, ts, frame_len)].
Proof.
  unfold tight, count_packet, ts_of, frame_of. simpl.
  rewrite min_ts_idem, max_ts_idem, min_int_min, max_int_max.
  rewrite Z.min_id, Z.max_id.
  repeat split; auto.
  constructor; [|constructor].
  repeat split; try apply Qcle_refl; simpl; lia.
Qed.

Lemma tight_next cap s ps frame_no ts frame_len :
  tight s ps ->
  tight (count_packet cap s frame_no ts frame_len)
    (ps ++ [(frame_no, ts, frame_len)]).
Proof.
  unfold tight, count_packet. simpl.
  rewrite min_int_min, max_int_max, !map_app.
  intros [Hall [H1 [H2 [H3 H4]]]].
  split; [|repeat split].
  - apply Forall_app. split.
    + eapply Forall_impl; [|exact Hall].
      intros p [Ha [Hb [Hc Hd]]]. repeat split; try lia.
      * eapply Qcle_trans; [apply min_ts_le_l | exact Ha].
      * eapply Qcle_trans; [exact Hb | apply max_ts_ge_l].
    + constructor; [|constructor]. unfold ts_of, frame_of. simpl.
      repeat split; try lia.
      * apply min_ts_le_r.
      * apply max_ts_ge_r.
  - apply in_or_app.
    destruct (min_ts_cases (Session.first_ts s) ts) as [-> | ->];
      [left; exact H1 | right; left; reflexivity].
  - apply in_or_app.
    destruct (max_ts_cases (Session.last_ts s) ts) as [-> | ->];
      [left; exact H2 | right; left; reflexivity].
  - apply in_or_app. unfold frame_of at 2. simpl.
    destruct (Z.min_spec (Evidence.first_frame (Session.evidence s)) frame_no)
      as [[_ ->] | [_ ->]]; [left; exact H3 | right; left; reflexivity].
  - apply in_or_app. unfold frame_of at 2. simpl.
    destruct (Z.max_spec (Evidence.last_frame (Session.evidence s)) frame_no)
      as [[_ ->] | [_ ->]]; [right; left; reflexivity | left; exact H4].
Qed.

(** X1: a session is stored under a key exactly when some row that
    reaches the aggregator has that key, and then its packet count is the
    number of those rows and its byte count the sum of their frame lengths
    (an absent length counting for 0). *)
Theorem session_counts_its_packets
    (py_int : string -> option Z) (py_float : string -> option Qc)
    (sha1_hexdigest : string -> string) (cap : Z) (rows : list Row) :
  let st := read_rows py_int py_float sha1_hexdigest cap rows in
  (forall key,
     In key (keys (State.sessions st))
     <-> packets_of py_int py_float key rows <> [])
  /\ Forall (fun ks =>
               let ps := packets_of py_int py_float (fst ks) rows in
               Session.packet_count (snd ks) = Z.of_nat (length ps)
               /\ Session.byte_count (snd ks) = total_len ps)
       (State.sessions st).
Proof.
  intros st. split.
  - intros key.
    pose proof (read_rows_per_key py_int py_float sha1_hexdigest cap
                  (fun _ _ => True) (fun _ _ _ _ H => H)
                  (fun _ _ _ _ _ _ _ => I) (fun _ _ _ _ _ _ _ => I)
                  rows key) as H.
    fold st in H. rewrite dict_get_keys.
    destruct (dict_get (State.sessions st) key) as [s|].
    + split; [intros _; apply H | eauto].
    + split; [intros [v Hv]; discriminate Hv | intros Hne; contradiction].
  - eapply Forall_impl;
      [|apply (read_rows_folded py_int py_float sha1_hexdigest cap rows)].
    intros [key s] [Hc [Hb _]]. auto.
Qed.

(** X2: the evidence sample of a session is the list of the frame numbers
    of its first packets in arrival order, as many as the cap allows (none
    for a cap that is not positive). *)
Theorem sample_frames_are_the_first_frames
    (py_int : string -> option Z) (py_float : string -> option Qc)
    (sha1_hexdigest : string -> string) (cap : Z) (rows : list Row) :
  Forall (fun ks =>
            Evidence.sample_frames (Session.evidence (snd ks))
            = firstn (Z.to_nat cap)
                (map frame_of (packets_of py_int py_float (fst ks) rows)))
    (State.sessions (read_rows py_int py_float sha1_hexdigest cap rows)).
Proof.
  eapply Forall_impl;
    [|apply (read_rows_folded py_int py_float sha1_hexdigest cap rows)].
  intros [key s] [_ [_ Hs]]. exact Hs.
Qed.


(** ** Invariants of the stored pairs of key and session *)

Lemma Forall_pairs_dict_set {V} (P : string * V -> Prop) d k v :
  Forall P d -> P (k, v) -> Forall P (dict_set d k v).
Proof.
  intros Hd Hv. induction d as [|[k' v'] d IH]; simpl.
  - auto.
  - inversion Hd; subst. destruct (String.eqb k' k) eqn:E.
    + apply String.eqb_eq in E. subst k'. auto.
    + auto.
Qed.

Ltac observe_cases row :=
  unfold observe;
  destruct (truthy (text row "frame.protocols"));
  destruct (truthy (text row "dns.qry.name"));
  destruct (truthy (text row "http.request.method")
            && (truthy (text row "http.host")
                || truthy (text row "http.request.uri")));
  destruct (truthy (text row "tls.handshake.extensions_server_name")).

Section Pairs.
Variable py_int : string -> option Z.
Variable py_float : string -> option Qc.
Variable sha1_hexdigest : string -> string.
Variable cap : Z.

#[local] Abbreviation loop := (read_rows py_int py_float sha1_hexdigest cap).

(** The session created for the key of a row. *)
Definition new_session_for (row : Row) (frame_no : Z) (ts : Qc)
    : Session.t :=
  let '(transport, (a, b)) := flow_of py_int row in
  new_session (session_id_of sha1_hexdigest (key_of py_int row))
    transport a b ts frame_no.

(** What one packet does to the session of its key. *)
Definition fold_packet (row : Row) (frame_no : Z) (ts : Qc) (s : Session.t)
    : Session.t :=
  observe row frame_no ts
    (count_packet cap s frame_no ts (_safe_int py_int (get row "frame.len"))).

Lemma session_after_fold_packet st row frame_no ts :
  session_after py_int sha1_hexdigest cap st row frame_no ts
  = fold_packet row frame_no ts
      match dict_get (State.sessions st) (key_of py_int row) with
      | Some s => s
      | None => new_session_for row frame_no ts
      end.
Proof.
  unfold session_after, fold_packet, session_for, new_session_for.
  destruct (dict_get (State.sessions st) (key_of py_int row));
    [reflexivity|].
  destruct (flow_of py_int row) as [transport [a b]]. reflexivity.
Qed.

Section Kept.
Variable P : string -> Session.t -> Prop.
Hypothesis P_first : forall row frame_no ts,
  P (key_of py_int row)
    (fold_packet row frame_no ts (new_session_for row frame_no ts)).
Hypothesis P_next : forall row frame_no ts s,
  P (key_of py_int row) s ->
  P (key_of py_int row) (fold_packet row frame_no ts s).

Lemma read_rows_pairs rows :
  Forall (fun ks => P (fst ks) (snd ks)) (State.sessions (loop rows)).
Proof.
  induction rows as [|row rows IH] using rev_ind; [constructor|].
  rewrite read_rows_snoc, loop_body_view. unfold loop_view.
  destruct (stamped py_int py_float row) as [[frame_no ts]|]; [|exact IH].
  destruct (addressed row); [|exact IH].
  simpl. apply Forall_pairs_dict_set; [exact IH|]. simpl.
  rewrite session_after_fold_packet.
  destruct (dict_get (State.sessions (loop rows)) (key_of py_int row))
    as [s|] eqn:E.
  - apply P_next. apply dict_get_In_pair in E.
    rewrite Forall_forall in IH. apply (IH _ E).
  - apply P_first.
Qed.
End Kept.
End Pairs.

(** ** Identity of a stored session *)

Definition identity (s : Session.t)
    : string * Transport * (Endpoint * Endpoint) :=
  (Session.id s, Session.transport s, Session.endpoints s).

Lemma identity_observe row frame_no ts s :
  identity (observe row frame_no ts s) = identity s.
Proof. observe_cases row; reflexivity. Qed.

Lemma _canonical_pair_ordered src_ip src_port dst_ip dst_port :
  let ab := _canonical_pair src_ip src_port dst_ip dst_port in
  tuple_le (_canonical_endpoint (ip (fst ab)) (port (fst ab)))
    (_canonical_endpoint (ip (snd ab)) (port (snd ab))) = true.
Proof.
  unfold _canonical_pair.
  destruct (tuple_le (_canonical_endpoint src_ip src_port)
              (_canonical_endpoint dst_ip dst_port)) eqn:E; simpl.
  - exact E.
  - apply tuple_le_total, E.
Qed.

(** The key under which a session is stored is the key of its own
    transport and endpoints, its identifier is the digest of that key, and
    its endpoints are in canonical order. *)
Definition keyed (sha1_hexdigest : string -> string) (key : string)
    (s : Session.t) : Prop :=
  Session.id s = session_id_of sha1_hexdigest key
  /\ session_key_of (Session.transport s) (fst (Session.endpoints s))
       (snd (Session.endpoints s)) = key
  /\ tuple_le
       (_canonical_endpoint (ip (fst (Session.endpoints s)))
          (port (fst (Session.endpoints s))))
       (_canonical_endpoint (ip (snd (Session.endpoints s)))
          (port (snd (Session.endpoints s)))) = true.

Lemma keyed_identity sha1_hexdigest key s s' :
  identity s = identity s' ->
  keyed sha1_hexdigest key s -> keyed sha1_hexdigest key s'.
Proof.
  unfold identity, keyed. intros H. injection H as <- <- <-. auto.
Qed.

Lemma keyed_first (py_int : string -> option Z) sha1_hexdigest cap
    row frame_no ts :
  keyed sha1_hexdigest (key_of py_int row)
    (fold_packet py_int cap row frame_no ts
       (new_session_for py_int sha1_hexdigest row frame_no ts)).
Proof.
  unfold fold_packet.
  eapply keyed_identity; [symmetry; apply identity_observe|].
  unfold new_session_for, key_of, flow_of.
  destruct (transport_of _ _ _ _) as [[transport src_port] dst_port].
  pose proof (_canonical_pair_ordered
                (address row "ip.src" "ipv6.src") src_port
                (address row "ip.dst" "ipv6.dst") dst_port) as Hle.
  destruct (_canonical_pair _ _ _ _) as [a b].
  repeat split. exact Hle.
Qed.

Lemma keyed_next (py_int : string -> option Z) sha1_hexdigest cap
    row frame_no ts s :
  keyed sha1_hexdigest (key_of py_int row) s ->
  keyed sha1_hexdigest (key_of py_int row)
    (fold_packet py_int cap row frame_no ts s).
Proof.
  intros H. unfold fold_packet.
  eapply keyed_identity; [symmetry; apply identity_observe|]. exact H.
Qed.

(** X4: every session of the table is stored under the key that its own
    transport and endpoints format to, its identifier is the first twelve
    characters of the digest of that key, and its endpoints are in
    canonical order (a <= b). *)
Theorem stored_session_matches_its_key
    (py_int : string -> option Z) (py_float : string -> option Qc)
    (sha1_hexdigest : string -> string) (cap : Z) (rows : list Row) :
  Forall (fun ks => keyed sha1_hexdigest (fst ks) (snd ks))
    (State.sessions (read_rows py_int py_float sha1_hexdigest cap rows)).
Proof.
  apply (read_rows_pairs py_int py_float sha1_hexdigest cap
           (keyed sha1_hexdigest)).
  - intros row frame_no ts. apply keyed_first.
  - intros row frame_no ts s. apply keyed_next.
Qed.

(** ** Observations *)

(** A timestamp and a frame number lie within the bounds of a session. *)
Definition in_bounds (s : Session.t) (ts : Qc) (frame_no : Z) : Prop :=
  (Session.first_ts s <= ts)%Qc /\ (ts <= Session.last_ts s)%Qc
  /\ Evidence.first_frame (Session.evidence s) <= frame_no
  /\ frame_no <= Evidence.last_frame (Session.evidence s).

(** A property of timestamp and frame holds of every observation. *)
Definition observations_all (Q : Qc -> Z -> Prop) (s : Session.t) : Prop :=
  let o := Session.observations s in
  Forall (fun q => Q (DnsQuery.ts q) (DnsQuery.evidence_frame q))
    (Observations.dns_queries o)
  /\ Forall (fun r => Q (HttpRequest.ts r) (HttpRequest.evidence_frame r))
       (Observations.http_requests o)
  /\ Forall (fun x => Q (TlsSni.ts x) (TlsSni.evidence_frame x))
       (Observations.tls_sni o).

Lemma observations_all_impl (Q Q' : Qc -> Z -> Prop) s :
  (forall ts f, Q ts f -> Q' ts f) ->
  observations_all Q s -> observations_all Q' s.
Proof.
  unfold observations_all. intros H [H1 [H2 H3]].
  repeat split; (eapply Forall_impl; [|eassumption]); simpl; auto.
Qed.

Lemma observations_all_observe (Q : Qc -> Z -> Prop) row frame_no ts s :
  observations_all Q s -> Q ts frame_no ->
  observations_all Q (observe row frame_no ts s).
Proof.
  unfold observations_all. intros [H1 [H2 H3]] Hq.
  observe_cases row; simpl; repeat split;
    try assumption; apply Forall_app; split; auto.
Qed.

Lemma in_bounds_counters s s' ts f :
  counters s = counters s' -> in_bounds s ts f -> in_bounds s' ts f.
Proof.
  unfold counters, in_bounds. intros H.
  injection H as _ _ <- <- _ _ <-. auto.
Qed.

Lemma in_bounds_count_packet cap s frame_no ts frame_len t f :
  in_bounds s t f -> in_bounds (count_packet cap s frame_no ts frame_len) t f.
Proof.
  unfold in_bounds, count_packet. simpl.
  rewrite min_int_min, max_int_max. intros [H1 [H2 [H3 H4]]].
  repeat split; try lia.
  - eapply Qcle_trans; [apply min_ts_le_l | exact H1].
  - eapply Qcle_trans; [exact H2 | apply max_ts_ge_l].
Qed.

Lemma in_bounds_own_packet cap s frame_no ts frame_len :
  in_bounds (count_packet cap s frame_no ts frame_len) ts frame_no.
Proof.
  unfold in_bounds, count_packet. simpl.
  rewrite min_int_min, max_int_max.
  repeat split; try lia.
  - apply min_ts_le_r.
  - apply max_ts_ge_r.
Qed.

Lemma observations_in_bounds_step (py_int : string -> option Z) cap
    row frame_no ts s :
  observations_all (in_bounds s) s ->
  observations_all (in_bounds (fold_packet py_int cap row frame_no ts s))
    (fold_packet py_int cap row frame_no ts s).
Proof.
  intros H. unfold fold_packet.
  set (s1 := count_packet cap s frame_no ts
               (_safe_int py_int (get row "frame.len"))).
  apply (observations_all_impl (in_bounds s1)).
  - intros t f. apply in_bounds_counters. symmetry. apply counters_observe.
  - apply observations_all_observe.
    + apply (observations_all_impl (in_bounds s)).
      * intros t f. apply in_bounds_count_packet.
      * exact H.
    + apply in_bounds_own_packet.
Qed.


(** ** Protocol-chain histogram and observation counts *)

Definition chain_total (chains : list (string * Z)) : Z :=
  fold_right (fun kc acc => snd kc + acc) 0 chains.

Definition bumped (chains : list (string * Z)) (chain : string)
    : list (string * Z) :=
  dict_set chains chain
    (match dict_get chains chain with Some n => n | None => 0 end + 1).

Lemma chain_total_bumped chains chain :
  chain_total (bumped chains chain) = chain_total chains + 1.
Proof.
  unfold bumped. induction chains as [|[k n] chains IH]; simpl.
  - reflexivity.
  - destruct (String.eqb k chain); simpl; lia.
Qed.

Lemma Forall_bumped chains chain :
  Forall (fun kc => 1 <= snd kc) chains ->
  Forall (fun kc => 1 <= snd kc) (bumped chains chain).
Proof.
  unfold bumped. induction 1 as [|[k n] chains Hn Hc IH]; simpl.
  - repeat constructor. simpl. lia.
  - simpl in Hn. destruct (String.eqb k chain).
    + constructor; [simpl; lia | exact Hc].
    + constructor; [exact Hn | exact IH].
Qed.

(** The histogram counts at most one chain per packet, every count is
    positive, no chain is listed twice, and no kind of observation has
    more entries than the session has packets. *)
Definition tallied (s : Session.t) : Prop :=
  let o := Session.observations s in
  chain_total (Session.protocol_chains s) <= Session.packet_count s
  /\ Forall (fun kc => 1 <= snd kc) (Session.protocol_chains s)
  /\ NoDup (keys (Session.protocol_chains s))
  /\ Z.of_nat (length (Observations.dns_queries o)) <= Session.packet_count s
  /\ Z.of_nat (length (Observations.http_requests o))
     <= Session.packet_count s
  /\ Z.of_nat (length (Observations.tls_sni o)) <= Session.packet_count s.

Lemma tallied_step (py_int : string -> option Z) cap row frame_no ts s :
  tallied s -> tallied (fold_packet py_int cap row frame_no ts s).
Proof.
  unfold tallied, fold_packet. intros [H1 [H2 [H3 [H4 [H5 H6]]]]].
  pose proof (chain_total_bumped (Session.protocol_chains s)
                (text row "frame.protocols")) as Ht.
  pose proof (Forall_bumped (Session.protocol_chains s)
                (text row "frame.protocols") H2) as Hf.
  pose proof (NoDup_keys_dict_set (Session.protocol_chains s)
                (text row "frame.protocols")
                (match dict_get (Session.protocol_chains s)
                         (text row "frame.protocols")
                 with Some n => n | None => 0 end + 1) H3) as Hn.
  unfold bumped in Ht, Hf.
  observe_cases row; simpl; rewrite ?length_app; simpl;
    repeat split; try assumption; lia.
Qed.

(** X6: in every session the counts of the protocol-chain histogram add
    up to at most the packet count, each listed chain has a positive count
    and is listed once, and each kind of observation has at most as many
    entries as the session has packets. *)
Theorem histogram_and_observations_bounded_by_packets
    (py_int : string -> option Z) (py_float : string -> option Qc)
    (sha1_hexdigest : string -> string) (cap : Z) (rows : list Row) :
  Forall (fun ks => tallied (snd ks))
    (State.sessions (read_rows py_int py_float sha1_hexdigest cap rows)).
Proof.
  apply (read_rows_pairs py_int py_float sha1_hexdigest cap
           (fun _ s => tallied s)).
  - intros row frame_no ts. apply tallied_step.
    unfold new_session_for.
    destruct (flow_of py_int row) as [transport [a b]].
    unfold tallied. simpl. repeat split; try constructor; lia.
  - intros row frame_no ts s. apply tallied_step.
Qed.

(** ** Size of the evidence sample *)

(** X7: the evidence sample of a session holds exactly
    min(packet_count, max(0, cap)) frames, every session holds at least
    one packet, and every sampled frame lies between the first and the
    last frame of the session. *)
Theorem sample_size_is_min_of_packets_and_cap
    (py_int : string -> option Z) (py_float : string -> option Qc)
    (sha1_hexdigest : string -> string) (cap : Z) (rows : list Row) :
  Forall (fun s =>
            1 <= Session.packet_count s
            /\ sample_size s = Z.min (Session.packet_count s) (Z.max 0 cap)
            /\ Forall (fun f =>
                         Evidence.first_frame (Session.evidence s) <= f
                         /\ f <= Evidence.last_frame (Session.evidence s))
                 (Evidence.sample_frames (Session.evidence s)))
    (dict_values
       (State.sessions (read_rows py_int py_float sha1_hexdigest cap rows))).
Proof.
  unfold dict_values. rewrite Forall_map.
  pose proof (read_rows_folded py_int py_float sha1_hexdigest cap rows) as Hf.
  pose proof (read_rows_related py_int py_float sha1_hexdigest cap tight
                tight_counters (tight_first cap)
                (fun s ps f t l _ H => tight_next cap s ps f t l H) rows)
    as Ht.
  pose proof (read_rows_per_key py_int py_float sha1_hexdigest cap
                (fun _ _ => True) (fun _ _ _ _ H => H)
                (fun _ _ _ _ _ _ _ => I) (fun _ _ _ _ _ _ _ => I) rows)
    as Hn.
  rewrite Forall_forall in *. intros [key s] Hin.
  specialize (Hf _ Hin). specialize (Ht _ Hin). simpl in *.
  destruct Hf as [Hc [_ Hs]]. destruct Ht as [Hall _].
  assert (Hne : packets_of py_int py_float key rows <> []).
  { specialize (Hn key).
    apply In_dict_get in Hin; [|apply read_rows_keys].
    rewrite Hin in Hn. apply Hn. }
  split; [|split].
  - rewrite Hc. destruct (packets_of py_int py_float key rows);
      [contradiction | simpl; lia].
  - unfold sample_size. rewrite Hs, Hc, length_firstn, length_map. lia.
  - rewrite Hs. apply Forall_forall. intros f Hf.
    assert (Hf' : In f (map frame_of (packets_of py_int py_float key rows))).
    { clear -Hf. revert Hf. generalize (Z.to_nat cap).
      generalize (map frame_of (packets_of py_int py_float key rows)).
      intros l n. revert l. induction n as [|n IH]; intros [|x l]; simpl;
        try tauto.
      intros [-> | H]; auto. }
    apply in_map_iff in Hf'. destruct Hf' as [p [<- Hp]].
    rewrite Forall_forall in Hall. destruct (Hall p Hp) as [_ [_ H]].
    exact H.
Qed.

(** ** Totals over the session table *)

Definition sum_over (f : Session.t -> Z) (l : list Session.t) : Z :=
  fold_right (fun s acc => f s + acc) 0 l.

Lemma sum_over_dict_set f (d : list (string * Session.t)) k v :
  sum_over f (dict_values (dict_set d k v))
  = sum_over f (dict_values d)
    - match dict_get d k with Some old => f old | None => 0 end
    + f v.
Proof.
  induction d as [|[k0 v0] d IH]; simpl.
  - lia.
  - destruct (String.eqb k0 k); simpl; lia.
Qed.

Lemma sum_over_Permutation f l l' :
  Permutation l l' -> sum_over f l = sum_over f l'.
Proof. induction 1; simpl; lia. Qed.

Lemma sum_over_map f g l :
  (forall s, f (g s) = f s) -> sum_over f (map g l) = sum_over f l.
Proof.
  intros H. induction l as [|s l IH]; simpl; [reflexivity|].
  rewrite H, IH. reflexivity.
Qed.

(** The total over the session list of an artifact is the total over the
    table it was assembled from. *)
Lemma sum_over_artifact f w now pcap_path tshark_bin include_sha256 st :
  (forall s, f (rule_engine s) = f s) ->
  sum_over f
    (Artifact.sessions
       (artifact_of w now pcap_path tshark_bin include_sha256 st))
  = sum_over f (dict_values (State.sessions st)).
Proof.
  intros H. simpl.
  rewrite <- (sum_over_Permutation f _ _ (sorted_perm session_lt _)).
  apply sum_over_map, H.
Qed.

(** The number of observations of a session. *)
Definition observation_count (s : Session.t) : Z :=
  let o := Session.observations s in
  Z.of_nat (length (Observations.dns_queries o))
  + Z.of_nat (length (Observations.http_requests o))
  + Z.of_nat (length (Observations.tls_sni o)).

Section Totals.
Variable py_int : string -> option Z.
Variable py_float : string -> option Qc.
Variable sha1_hexdigest : string -> string.
Variable cap : Z.

#[local] Abbreviation loop := (read_rows py_int py_float sha1_hexdigest cap).

(** The packets of the rows that reach the aggregator, in arrival order. *)
Definition reaching (rows : list Row) : list Packet :=
  flat_map (fun row =>
              match packet_of py_int py_float row with
              | Some (_, p) => [p]
              | None => []
              end) rows.

Lemma length_reaching rows : (length (reaching rows) <= length rows)%nat.
Proof.
  induction rows as [|row rows IH]; simpl; [lia|].
  rewrite length_app.
  destruct (packet_of py_int py_float row) as [[k p]|]; simpl; lia.
Qed.

Lemma packet_count_fold_packet row frame_no ts s :
  Session.packet_count (fold_packet py_int cap row frame_no ts s)
  = Session.packet_count s + 1.
Proof. unfold fold_packet. observe_cases row; reflexivity. Qed.

Lemma byte_count_fold_packet row frame_no ts s :
  Session.byte_count (fold_packet py_int cap row frame_no ts s)
  = Session.byte_count s
    + len_of (frame_no, ts, _safe_int py_int (get row "frame.len")).
Proof. unfold fold_packet. observe_cases row; reflexivity. Qed.

Lemma observation_count_fold_packet row frame_no ts s :
  stamped py_int py_float row = Some (frame_no, ts) ->
  addressed row = true ->
  observation_count (fold_packet py_int cap row frame_no ts s)
  = observation_count s
    + Z.of_nat (length (row_events py_int py_float sha1_hexdigest row)).
Proof.
  intros Es Ea. unfold row_events. rewrite Es, Ea.
  unfold fold_packet, observation_count.
  observe_cases row; simpl; rewrite ?length_app; simpl; lia.
Qed.

Lemma read_rows_totals rows :
  let st := loop rows in
  let sessions := dict_values (State.sessions st) in
  sum_over Session.packet_count sessions = Z.of_nat (length (reaching rows))
  /\ sum_over Session.byte_count sessions = total_len (reaching rows)
  /\ sum_over observation_count sessions
     = Z.of_nat (length (State.events st)).
Proof.
  induction rows as [|row rows IH] using rev_ind; [repeat split|].
  simpl in IH. destruct IH as [IH1 [IH2 IH3]].
  cbv zeta. rewrite read_rows_snoc, loop_body_view.
  unfold loop_view, reaching. rewrite flat_map_app. simpl.
  fold (reaching rows). rewrite app_nil_r.
  unfold packet_of.
  destruct (stamped py_int py_float row) as [[frame_no ts]|] eqn:Es;
    [|simpl; rewrite app_nil_r; auto].
  destruct (addressed row) eqn:Ea;
    [|simpl; rewrite app_nil_r; auto].
  simpl. rewrite !sum_over_dict_set, session_after_fold_packet.
  rewrite packet_count_fold_packet, byte_count_fold_packet,
    (observation_count_fold_packet _ _ _ _ Es Ea).
  rewrite !length_app, total_len_app, IH1, IH2, IH3. simpl.
  destruct (dict_get (State.sessions (loop rows)) (key_of py_int row));
    [repeat split; lia|].
  unfold new_session_for.
  destruct (flow_of py_int row) as [transport [a b]].
  unfold observation_count. simpl. repeat split; lia.
Qed.
End Totals.

(** X8: the packet counts of the sessions of an artifact add up to the
    number of rows that yield frame number, timestamp and both addresses,
    their byte counts add up to the sum of the frame lengths of those rows
    (an absent length counting for 0), and that number of rows is at most
    [packets_analyzed], which counts every row read: no row is counted in
    two sessions and no dropped row in any. *)
Theorem packets_are_counted_once
    (py_int : string -> option Z) (py_float : string -> option Qc)
    (sha1_hexdigest : string -> string) (cap : Z) (rows : list Row)
    (w : World.t) (now pcap_path tshark_bin : string)
    (include_sha256 : bool) :
  let a := artifact_of w now pcap_path tshark_bin include_sha256
             (read_rows py_int py_float sha1_hexdigest cap rows) in
  let counted := reaching py_int py_float rows in
  sum_over Session.packet_count (Artifact.sessions a)
  = Z.of_nat (length counted)
  /\ sum_over Session.byte_count (Artifact.sessions a) = total_len counted
  /\ Pcap.packets_analyzed (Artifact.pcap a) = Z.of_nat (length rows)
  /\ Z.of_nat (length counted) <= Pcap.packets_analyzed (Artifact.pcap a).
Proof.
  intros a counted.
  destruct (read_rows_totals py_int py_float sha1_hexdigest cap rows)
    as [H1 [H2 _]].
  assert (Hn : Pcap.packets_analyzed (Artifact.pcap a)
               = Z.of_nat (length rows)).
  { subst a. simpl. unfold read_rows.
    rewrite fold_loop_body_packet_count. reflexivity. }
  subst a counted. rewrite !sum_over_artifact by reflexivity.
  repeat split; try assumption.
  rewrite Hn. pose proof (length_reaching py_int py_float rows). lia.
Qed.

(** X9: the timeline of an artifact has exactly as many events as its
    sessions hold observations (DNS queries, HTTP requests and TLS server
    names together). *)
Theorem one_event_per_observation
    (py_int : string -> option Z) (py_float : string -> option Qc)
    (sha1_hexdigest : string -> string) (cap : Z) (rows : list Row)
    (w : World.t) (now pcap_path tshark_bin : string)
    (include_sha256 : bool) :
  let a := artifact_of w now pcap_path tshark_bin include_sha256
             (read_rows py_int py_float sha1_hexdigest cap rows) in
  Z.of_nat (length (Artifact.timeline a))
  = sum_over observation_count (Artifact.sessions a).
Proof.
  intros a.
  destruct (read_rows_totals py_int py_float sha1_hexdigest cap rows)
    as [_ [_ H3]].
  subst a. rewrite sum_over_artifact by reflexivity.
  simpl Artifact.timeline. unfold timeline_of.
  rewrite <- (Permutation_length (sorted_perm event_lt _)).
  symmetry. exact H3.
Qed.

(** ** Events refer to sessions *)

(** An event refers to a session: it carries the identifier of the
    session, and its timestamp and frame lie within the bounds of the
    session. *)
Definition refers_to (e : TimelineEvent.t) (s : Session.t) : Prop :=
  TimelineEvent.session_id e = Session.id s
  /\ in_bounds s (TimelineEvent.ts e) (TimelineEvent.evidence_frame e).

Lemma refers_to_counters e s s' :
  counters s = counters s' -> refers_to e s -> refers_to e s'.
Proof.
  unfold refers_to. intros H [Hid Hb]. split.
  - rewrite Hid. unfold counters in H. congruence.
  - eapply in_bounds_counters; eassumption.
Qed.

Section Refers.
Variable py_int : string -> option Z.
Variable py_float : string -> option Qc.
Variable sha1_hexdigest : string -> string.
Variable cap : Z.

#[local] Abbreviation loop := (read_rows py_int py_float sha1_hexdigest cap).

Lemma refers_to_fold_packet e row frame_no ts s :
  refers_to e s -> refers_to e (fold_packet py_int cap row frame_no ts s).
Proof.
  unfold fold_packet. intros [Hid Hb].
  eapply refers_to_counters; [symmetry; apply counters_observe|].
  split; [exact Hid | apply in_bounds_count_packet, Hb].
Qed.

(** The events of a row refer to the session the row is folded into. *)
Lemma row_events_refer row frame_no ts s :
  stamped py_int py_float row = Some (frame_no, ts) ->
  Session.id s = session_id_of sha1_hexdigest (key_of py_int row) ->
  Forall (fun e => refers_to e (fold_packet py_int cap row frame_no ts s))
    (row_events py_int py_float sha1_hexdigest row).
Proof.
  intros Es Hid. unfold row_events. rewrite Es.
  destruct (addressed row); [|constructor].
  assert (H : forall kind summary,
             refers_to
               (TimelineEvent.mk ts
                  (session_id_of sha1_hexdigest (key_of py_int row))
                  kind summary frame_no)
               (fold_packet py_int cap row frame_no ts s)).
  { intros kind summary. unfold fold_packet.
    eapply refers_to_counters; [symmetry; apply counters_observe|].
    split; [simpl; symmetry; exact Hid | apply in_bounds_own_packet]. }
  apply Forall_app. split; [|apply Forall_app; split];
    match goal with
    | |- Forall _ (if ?c then _ else _) =>
        destruct c; constructor; [apply H | constructor]
    end.
Qed.

Definition referring (st : State.t) : Prop :=
  Forall (fun e =>
            exists key s,
              dict_get (State.sessions st) key = Some s /\ refers_to e s)
    (State.events st).

Lemma read_rows_referring rows : referring (loop rows).
Proof.
  induction rows as [|row rows IH] using rev_ind; [constructor|].
  pose proof (read_rows_pairs py_int py_float sha1_hexdigest cap
                (keyed sha1_hexdigest)
                (keyed_first py_int sha1_hexdigest cap)
                (keyed_next py_int sha1_hexdigest cap) rows) as Hk.
  unfold referring in *.
  rewrite read_rows_snoc, loop_body_view. unfold loop_view.
  destruct (stamped py_int py_float row) as [[frame_no ts]|] eqn:Es;
    [|exact IH].
  destruct (addressed row) eqn:Ea; [|exact IH].
  simpl. rewrite session_after_fold_packet.
  set (st := loop rows) in *.
  set (key := key_of py_int row) in *.
  apply Forall_app. split.
  - eapply Forall_impl; [|exact IH].
    intros e [k [s [Hg Hr]]].
    destruct (String.eqb key k) eqn:E.
    + apply String.eqb_eq in E. subst k.
      exists key. eexists. split; [apply dict_get_set_same|].
      rewrite Hg. apply refers_to_fold_packet, Hr.
    + apply String.eqb_neq in E.
      exists k, s. split; [|exact Hr].
      rewrite dict_get_set_other by exact E. exact Hg.
  - eapply Forall_impl;
      [|apply (row_events_refer row frame_no ts
                 match dict_get (State.sessions st) key with
                 | Some s => s
                 | None => new_session_for py_int sha1_hexdigest row
                             frame_no ts
                 end Es)].
    + intros e He. exists key. eexists.
      split; [apply dict_get_set_same | exact He].
    + destruct (dict_get (State.sessions st) key) as [s|] eqn:Eg.
      * apply dict_get_In_pair in Eg. rewrite Forall_forall in Hk.
        apply (Hk _ Eg).
      * unfold new_session_for.
        destruct (flow_of py_int row) as [transport [a b]]. reflexivity.
Qed.
End Refers.


(** ** The time bounds of the capture enclose those of the sessions *)

Definition enclosed (lo hi : option Qc) (s : Session.t) : Prop :=
  exists l h,
    lo = Some l /\ hi = Some h
    /\ (l <= Session.first_ts s)%Qc /\ (Session.last_ts s <= h)%Qc.

Section Enclosed.
Variable py_int : string -> option Z.
Variable py_float : string -> option Qc.
Variable sha1_hexdigest : string -> string.
Variable cap : Z.

#[local] Abbreviation loop := (read_rows py_int py_float sha1_hexdigest cap).

Lemma first_ts_after_le_ts st ts : (first_ts_after st ts <= ts)%Qc.
Proof.
  unfold first_ts_after. destruct (State.first_ts st).
  - apply min_ts_le_r.
  - apply Qcle_refl.
Qed.

Lemma last_ts_after_ge_ts st ts : (ts <= last_ts_after st ts)%Qc.
Proof.
  unfold last_ts_after. destruct (State.last_ts st).
  - apply max_ts_ge_r.
  - apply Qcle_refl.
Qed.

Lemma enclosed_after st ts s :
  enclosed (State.first_ts st) (State.last_ts st) s ->
  enclosed (Some (first_ts_after st ts)) (Some (last_ts_after st ts)) s.
Proof.
  unfold enclosed, first_ts_after, last_ts_after.
  intros [l [h [-> [-> [Hl Hh]]]]]. do 2 eexists.
  repeat split.
  - eapply Qcle_trans; [apply min_ts_le_l | exact Hl].
  - eapply Qcle_trans; [exact Hh | apply max_ts_ge_l].
Qed.

Lemma bounds_fold_packet row frame_no ts s :
  Session.first_ts (fold_packet py_int cap row frame_no ts s)
  = min_ts (Session.first_ts s) ts
  /\ Session.last_ts (fold_packet py_int cap row frame_no ts s)
     = max_ts (Session.last_ts s) ts.
Proof. unfold fold_packet. observe_cases row; split; reflexivity. Qed.

Lemma read_rows_enclosed rows :
  Forall (enclosed (State.first_ts (loop rows)) (State.last_ts (loop rows)))
    (dict_values (State.sessions (loop rows))).
Proof.
  induction rows as [|row rows IH] using rev_ind; [constructor|].
  rewrite read_rows_snoc, loop_body_view. unfold loop_view.
  set (st := loop rows) in *.
  destruct (stamped py_int py_float row) as [[frame_no ts]|]; [|exact IH].
  assert (IH' : Forall
                  (enclosed (Some (first_ts_after st ts))
                     (Some (last_ts_after st ts)))
                  (dict_values (State.sessions st))).
  { eapply Forall_impl; [|exact IH]. intros s. apply enclosed_after. }
  destruct (addressed row); [|exact IH'].
  simpl. apply Forall_dict_set; [exact IH'|].
  rewrite session_after_fold_packet.
  set (s0 := match dict_get (State.sessions st) (key_of py_int row) with
             | Some s => s
             | None => new_session_for py_int sha1_hexdigest row frame_no ts
             end).
  assert (H0 : (first_ts_after st ts <= Session.first_ts s0)%Qc
               /\ (Session.last_ts s0 <= last_ts_after st ts)%Qc).
  { subst s0.
    destruct (dict_get (State.sessions st) (key_of py_int row)) as [s|] eqn:E.
    - apply dict_get_In in E. rewrite Forall_forall in IH'.
      destruct (IH' _ E) as [l [h [[= <-] [[= <-] H]]]]. exact H.
    - unfold new_session_for.
      destruct (flow_of py_int row) as [transport [a b]]. simpl.
      split; [apply first_ts_after_le_ts | apply last_ts_after_ge_ts]. }
  destruct (bounds_fold_packet row frame_no ts s0) as [E1 E2].
  do 2 eexists. split; [reflexivity|]. split; [reflexivity|].
  rewrite E1, E2. split.
  - apply min_ts_glb; [apply H0 | apply first_ts_after_le_ts].
  - apply max_ts_lub; [apply H0 | apply last_ts_after_ge_ts].
Qed.
End Enclosed.


(** ** More on the flow key canonicalizer *)

Lemma _canonical_pair_swap src_ip src_port dst_ip dst_port :
  real_port src_port -> real_port dst_port ->
  _canonical_pair src_ip src_port dst_ip dst_port
  = _canonical_pair dst_ip dst_port src_ip src_port.
Proof.
  intros Hs Hd. unfold _canonical_pair.
  destruct (tuple_le (_canonical_endpoint src_ip src_port)
              (_canonical_endpoint dst_ip dst_port)) eqn:E1;
  destruct (tuple_le (_canonical_endpoint dst_ip dst_port)
              (_canonical_endpoint src_ip src_port)) eqn:E2;
    try reflexivity.
  - destruct (_canonical_endpoint_inj _ _ _ _ Hs Hd
                (tuple_le_antisym _ _ E1 E2)) as [-> ->].
    reflexivity.
  - apply tuple_le_total in E1. congruence.
Qed.

(** X12: [_canonical_pair] returns its two endpoints unchanged, in the
    given or in the swapped order, and its result is a fixed point:
    canonicalizing an already canonical pair returns it as it is. *)
Theorem canonical_pair_is_a_fixed_point
    (src_ip : string) (src_port : option Z)
    (dst_ip : string) (dst_port : option Z) :
  let ab := _canonical_pair src_ip src_port dst_ip dst_port in
  (ab = (mkEndpoint src_ip src_port, mkEndpoint dst_ip dst_port)
   \/ ab = (mkEndpoint dst_ip dst_port, mkEndpoint src_ip src_port))
  /\ _canonical_pair (ip (fst ab)) (port (fst ab))
       (ip (snd ab)) (port (snd ab)) = ab.
Proof.
  intros ab. split.
  - subst ab. unfold _canonical_pair.
    destruct (tuple_le _ _); auto.
  - pose proof (_canonical_pair_ordered src_ip src_port dst_ip dst_port)
      as H.
    fold ab in H. destruct ab as [[ia pa] [ib pb]]. simpl in *.
    unfold _canonical_pair. rewrite H. reflexivity.
Qed.

(** X13: two rows that describe the two directions of one conversation
    (addresses swapped, TCP ports swapped, UDP ports swapped), with no
    port equal to -1, have the same transport, the same canonical
    endpoints and the same session key, so the loop folds them into one
    session. *)
Theorem reversed_row_has_the_same_key
    (py_int : string -> option Z) (row row' : Row) :
  address row' "ip.src" "ipv6.src" = address row "ip.dst" "ipv6.dst" ->
  address row' "ip.dst" "ipv6.dst" = address row "ip.src" "ipv6.src" ->
  _safe_int py_int (get row' "tcp.srcport")
  = _safe_int py_int (get row "tcp.dstport") ->
  _safe_int py_int (get row' "tcp.dstport")
  = _safe_int py_int (get row "tcp.srcport") ->
  _safe_int py_int (get row' "udp.srcport")
  = _safe_int py_int (get row "udp.dstport") ->
  _safe_int py_int (get row' "udp.dstport")
  = _safe_int py_int (get row "udp.srcport") ->
  Forall (fun name => real_port (_safe_int py_int (get row name)))
    ["tcp.srcport"; "tcp.dstport"; "udp.srcport"; "udp.dstport"] ->
  flow_of py_int row' = flow_of py_int row
  /\ key_of py_int row' = key_of py_int row.
Proof.
  intros Hs Hd H1 H2 H3 H4 Hp.
  assert (E : flow_of py_int row' = flow_of py_int row).
  { unfold flow_of. rewrite Hs, Hd, H1, H2, H3, H4.
    inversion Hp as [|? ? P1 Hp1]; subst.
    inversion Hp1 as [|? ? P2 Hp2]; subst.
    inversion Hp2 as [|? ? P3 Hp3]; subst.
    inversion Hp3 as [|? ? P4 _]; subst.
    pose proof (transport_of_symmetric
                  (_safe_int py_int (get row "tcp.srcport"))
                  (_safe_int py_int (get row "tcp.dstport"))
                  (_safe_int py_int (get row "udp.srcport"))
                  (_safe_int py_int (get row "udp.dstport"))) as Ht.
    assert (Hr : forall t sp dp,
               transport_of (_safe_int py_int (get row "tcp.srcport"))
                 (_safe_int py_int (get row "tcp.dstport"))
                 (_safe_int py_int (get row "udp.srcport"))
                 (_safe_int py_int (get row "udp.dstport")) = (t, sp, dp) ->
               real_port sp /\ real_port dp).
    { unfold transport_of. intros t sp dp.
      destruct (is_some _ || is_some _);
        [|destruct (is_some _ || is_some _)]; intros [= <- <- <-];
        split; try assumption; unfold real_port; discriminate. }
    destruct (transport_of (_safe_int py_int (get row "tcp.srcport")) _ _ _)
      as [[t sp] dp] eqn:Et.
    rewrite Ht. destruct (Hr _ _ _ eq_refl) as [Rs Rd].
    f_equal. apply _canonical_pair_swap; assumption. }
  split; [exact E|]. unfold key_of. rewrite E. reflexivity.
Qed.

(** Frames 1 and 2 of the sample capture. *)
Lemma reversed_row_has_the_same_key_witness :
  flow_of decimal_int (nth 1 sample_rows [])
  = flow_of decimal_int (nth 0 sample_rows [])
  /\ key_of decimal_int (nth 1 sample_rows [])
     = key_of decimal_int (nth 0 sample_rows []).
Proof.
  apply (reversed_row_has_the_same_key decimal_int
           (nth 0 sample_rows []) (nth 1 sample_rows []));
    try reflexivity.
  repeat constructor; vm_compute; discriminate.
Defined.

(** ** Transport and ports of a session *)

Definition portless (s : Session.t) : Prop :=
  port (fst (Session.endpoints s)) = None
  /\ port (snd (Session.endpoints s)) = None.

Lemma transport_of_other tcp_src tcp_dst udp_src udp_dst t sp dp :
  transport_of tcp_src tcp_dst udp_src udp_dst = (t, sp, dp) ->
  (t = other <-> sp = None /\ dp = None).
Proof.
  unfold transport_of.
  destruct tcp_src, tcp_dst, udp_src, udp_dst; simpl;
    intros [= <- <- <-]; split; try discriminate; auto;
    intros [H1 H2]; discriminate.
Qed.

Lemma non_tcp_udp_flag s :
  In non_tcp_udp (Session.rule_flags (rule_engine s))
  <-> Session.transport s = other.
Proof.
  unfold rule_engine. simpl.
  rewrite <- (transport_str_other (Session.transport s)).
  repeat match goal with
         | |- context [if ?c then _ else _] => destruct c
         end;
    simpl; split; intros H; try discriminate H; auto 6;
    repeat match goal with
           | H : _ \/ _ |- _ => destruct H
           | H : _ = _ :> RuleFlag |- _ => discriminate H
           | H : False |- _ => destruct H
           end.
Qed.

(** X14: a session of an artifact carries the flag [non_tcp_udp] exactly
    when neither of its endpoints has a port, that is when the rows of the
    session carried no TCP and no UDP port. *)
Theorem non_tcp_udp_iff_no_ports
    (py_int : string -> option Z) (py_float : string -> option Qc)
    (sha1_hexdigest : string -> string) (cap : Z) (rows : list Row)
    (w : World.t) (now pcap_path tshark_bin : string)
    (include_sha256 : bool) :
  let a := artifact_of w now pcap_path tshark_bin include_sha256
             (read_rows py_int py_float sha1_hexdigest cap rows) in
  Forall (fun s => In non_tcp_udp (Session.rule_flags s) <-> portless s)
    (Artifact.sessions a).
Proof.
  intros a. subst a. simpl. apply Forall_sorted. rewrite Forall_map.
  pose proof (read_rows_pairs py_int py_float sha1_hexdigest cap
                (fun _ s => Session.transport s = other <-> portless s))
    as H.
  unfold dict_values. rewrite Forall_map.
  eapply Forall_impl; [|apply H].
  - intros [key s] Hs. cbv beta. cbn [snd] in *.
    rewrite non_tcp_udp_flag. exact Hs.
  - intros row frame_no ts. unfold fold_packet.
    pose proof (identity_observe row frame_no ts
                  (count_packet cap
                     (new_session_for py_int sha1_hexdigest row frame_no ts)
                     frame_no ts (_safe_int py_int (get row "frame.len"))))
      as Hi.
    unfold identity, portless in *. injection Hi as _ -> ->. simpl.
    unfold new_session_for, flow_of.
    destruct (transport_of _ _ _ _) as [[t sp] dp] eqn:Et.
    apply transport_of_other in Et.
    unfold _canonical_pair. destruct (tuple_le _ _); simpl; tauto.
  - intros row frame_no ts s Hs. unfold fold_packet.
    pose proof (identity_observe row frame_no ts
                  (count_packet cap s frame_no ts
                     (_safe_int py_int (get row "frame.len")))) as Hi.
    unfold identity, portless in *. injection Hi as _ -> ->. exact Hs.
Qed.

(** ** Locating the dissection tool *)

(** X15: [_resolve_tshark] returns the explicit path when that is a
    non-empty text, else the environment's TSHARK_PATH when that is one,
    else the executable found on PATH when there is one; it never returns
    an empty path, and it raises FileNotFoundError exactly when none of
    the three gives a non-empty path. *)
Theorem resolve_tshark_precedence
    (w : World.t) (explicit_path : option string) :
  match _resolve_tshark w explicit_path with
  | Return p =>
      p <> ""
      /\ (explicit_path = Some p
          \/ (truthy_opt explicit_path = false
              /\ World.environ_TSHARK_PATH w = Some p)
          \/ (truthy_opt explicit_path = false
              /\ truthy_opt (World.environ_TSHARK_PATH w) = false
              /\ World.which_tshark w = Some p))
  | Raise e =>
      e = FileNotFoundError
            "tshark not found on PATH. Install Wireshark/tshark or set TSHARK_PATH."
      /\ truthy_opt explicit_path = false
      /\ truthy_opt (World.environ_TSHARK_PATH w) = false
      /\ truthy_opt (World.which_tshark w) = false
  end.
Proof.
  unfold _resolve_tshark.
  assert (H : forall x : option string,
             truthy_opt x = true -> or_empty x <> "" /\ x = Some (or_empty x)).
  { intros [s|]; simpl; [|discriminate]. unfold truthy.
    destruct (String.eqb s "") eqn:E; [discriminate|].
    apply String.eqb_neq in E. auto. }
  destruct (truthy_opt explicit_path) eqn:E1.
  { destruct (H _ E1). auto. }
  destruct (truthy_opt (World.environ_TSHARK_PATH w)) eqn:E2.
  { destruct (H _ E2). auto. }
  destruct (truthy_opt (World.which_tshark w)) eqn:E3.
  { destruct (H _ E3). auto 6. }
  auto.
Qed.

(** ** Outcomes of a run *)


(** The sample world: the file exists, the tool is found on PATH and exits
    with status 0, so the run returns. *)
Example sample_run_returns :
  sample_run "2026-01-01T00:00:00+00:00" 8 true
  = Return (sample_artifact "2026-01-01T00:00:00+00:00" true).
Proof. vm_compute. reflexivity. Qed.

(** ** One session per key *)

Section Keys.
Variable py_int : string -> option Z.
Variable py_float : string -> option Qc.
Variable sha1_hexdigest : string -> string.
Variable cap : Z.

(** The session keys of the rows that reach the aggregator. *)
Definition reaching_keys (rows : list Row) : list string :=
  flat_map (fun row =>
              match packet_of py_int py_float row with
              | Some (k, _) => [k]
              | None => []
              end) rows.

Lemma packets_of_reaching_keys key rows :
  packets_of py_int py_float key rows <> [] <-> In key (reaching_keys rows).
Proof.
  unfold packets_of, reaching_keys.
  induction rows as [|row rows IH]; simpl.
  - tauto.
  - rewrite in_app_iff, <- IH.
    destruct (packet_of py_int py_float row) as [[k p]|]; simpl.
    + destruct (String.eqb k key) eqn:E; simpl.
      * apply String.eqb_eq in E. split; [auto | discriminate].
      * apply String.eqb_neq in E. tauto.
    + tauto.
Qed.

Lemma keys_are_reaching_keys rows key :
  In key
    (keys (State.sessions
             (read_rows py_int py_float sha1_hexdigest cap rows)))
  <-> In key (reaching_keys rows).
Proof.
  rewrite <- packets_of_reaching_keys, dict_get_keys.
  pose proof (read_rows_per_key py_int py_float sha1_hexdigest cap
                (fun _ _ => True) (fun _ _ _ _ H => H)
                (fun _ _ _ _ _ _ _ => I) (fun _ _ _ _ _ _ _ => I)
                rows key) as H.
  destruct (dict_get _ key) as [s|].
  - split; [intros _; apply H | eauto].
  - split; [intros [v Hv]; discriminate Hv | intros Hne; contradiction].
Qed.
End Keys.

(** X17: the artifact holds exactly one session for each distinct session
    key among the rows that reach the aggregator: the keys of the table
    are those keys, without repetition, and the session list has as many
    entries as there are distinct keys. *)
Theorem one_session_per_key
    (py_int : string -> option Z) (py_float : string -> option Qc)
    (sha1_hexdigest : string -> string) (cap : Z) (rows : list Row)
    (w : World.t) (now pcap_path tshark_bin : string)
    (include_sha256 : bool) :
  let st := read_rows py_int py_float sha1_hexdigest cap rows in
  let a := artifact_of w now pcap_path tshark_bin include_sha256 st in
  let distinct :=
    nodup String.string_dec (reaching_keys py_int py_float rows) in
  NoDup (keys (State.sessions st))
  /\ Permutation (keys (State.sessions st)) distinct
  /\ length (Artifact.sessions a) = length distinct.
Proof.
  intros st a distinct.
  assert (Hn : NoDup (keys (State.sessions st))) by apply read_rows_keys.
  assert (Hp : Permutation (keys (State.sessions st)) distinct).
  { apply NoDup_Permutation; [exact Hn | apply NoDup_nodup|].
    intros key. subst distinct. rewrite nodup_In.
    apply keys_are_reaching_keys. }
  repeat split; try assumption.
  subst a. simpl.
  rewrite <- (Permutation_length (sorted_perm session_lt _)).
  unfold dict_values. rewrite !length_map.
  rewrite <- (Permutation_length Hp). unfold keys. rewrite length_map.
  reflexivity.
Qed.

(** ** Every observation has its event *)

(** The timeline event of an observation of the session [sid]. *)
Definition dns_event (sid : string) (q : DnsQuery.t) : TimelineEvent.t :=
  TimelineEvent.mk (DnsQuery.ts q) sid dns_query
    ("DNS query: " ++ DnsQuery.name q) (DnsQuery.evidence_frame q).

Definition http_event (sid : string) (r : HttpRequest.t) : TimelineEvent.t :=
  TimelineEvent.mk (HttpRequest.ts r) sid http_request
    ("HTTP request: " ++ HttpRequest.method r ++ " "
       ++ or_empty (HttpRequest.host r) ++ or_empty (HttpRequest.uri r))
    (HttpRequest.evidence_frame r).

Definition tls_event (sid : string) (x : TlsSni.t) : TimelineEvent.t :=
  TimelineEvent.mk (TlsSni.ts x) sid tls_sni_kind
    ("TLS SNI: " ++ TlsSni.server_name x) (TlsSni.evidence_frame x).

(** All observations of a session have their event in a list of events. *)
Definition announced (events : list TimelineEvent.t) (s : Session.t)
    : Prop :=
  let o := Session.observations s in
  Forall (fun q => In (dns_event (Session.id s) q) events)
    (Observations.dns_queries o)
  /\ Forall (fun r => In (http_event (Session.id s) r) events)
       (Observations.http_requests o)
  /\ Forall (fun x => In (tls_event (Session.id s) x) events)
       (Observations.tls_sni o).

Lemma or_empty_or_None s : or_empty (or_None s) = s.
Proof.
  unfold or_None, truthy. destruct (String.eqb s "") eqn:E; simpl.
  - apply String.eqb_eq in E. auto.
  - reflexivity.
Qed.

Lemma announced_more events more s :
  announced events s -> announced (events ++ more) s.
Proof.
  unfold announced. intros [H1 [H2 H3]].
  repeat split; (eapply Forall_impl; [|eassumption]); simpl;
    intros; apply in_or_app; auto.
Qed.

Lemma announced_Permutation events events' s :
  Permutation events events' -> announced events s -> announced events' s.
Proof.
  unfold announced. intros Hp [H1 [H2 H3]].
  repeat split; (eapply Forall_impl; [|eassumption]); simpl;
    intros; eapply Permutation_in; eassumption.
Qed.

Section Announced.
Variable py_int : string -> option Z.
Variable py_float : string -> option Qc.
Variable sha1_hexdigest : string -> string.
Variable cap : Z.

#[local] Abbreviation loop := (read_rows py_int py_float sha1_hexdigest cap).

Lemma announced_fold_packet events row frame_no ts s :
  stamped py_int py_float row = Some (frame_no, ts) ->
  addressed row = true ->
  Session.id s = session_id_of sha1_hexdigest (key_of py_int row) ->
  announced events s ->
  announced (events ++ row_events py_int py_float sha1_hexdigest row)
    (fold_packet py_int cap row frame_no ts s).
Proof.
  intros Es Ea Hid Hs.
  apply (announced_more events
           (row_events py_int py_float sha1_hexdigest row)) in Hs.
  revert Hs. unfold row_events. rewrite Es, Ea.
  unfold announced, fold_packet, dns_event, http_event, tls_event.
  intros [H1 [H2 H3]].
  assert (Ei : forall s',
             identity s' = identity (count_packet cap s frame_no ts
                             (_safe_int py_int (get row "frame.len"))) ->
             Session.id s' = session_id_of sha1_hexdigest (key_of py_int row)).
  { intros s' H. unfold identity in H. injection H as -> _ _. exact Hid. }
  rewrite (Ei _ (identity_observe row frame_no ts _)).
  rewrite Hid in H1, H2, H3.
  observe_cases row; simpl; repeat split; try assumption;
    apply Forall_app; (split; [assumption|]);
    repeat constructor; simpl; rewrite ?or_empty_or_None;
    apply in_or_app; right; simpl; auto 6.
Qed.

Lemma read_rows_announced rows :
  Forall (announced (State.events (loop rows)))
    (dict_values (State.sessions (loop rows))).
Proof.
  induction rows as [|row rows IH] using rev_ind; [constructor|].
  pose proof (read_rows_pairs py_int py_float sha1_hexdigest cap
                (keyed sha1_hexdigest)
                (keyed_first py_int sha1_hexdigest cap)
                (keyed_next py_int sha1_hexdigest cap) rows) as Hk.
  rewrite read_rows_snoc, loop_body_view. unfold loop_view.
  set (st := loop rows) in *.
  destruct (stamped py_int py_float row) as [[frame_no ts]|] eqn:Es;
    [|exact IH].
  destruct (addressed row) eqn:Ea; [|exact IH].
  simpl. apply Forall_dict_set.
  - eapply Forall_impl; [|exact IH]. intros s. apply announced_more.
  - rewrite session_after_fold_packet.
    destruct (dict_get (State.sessions st) (key_of py_int row)) as [s|] eqn:Eg.
    + apply (announced_fold_packet _ _ _ _ _ Es Ea).
      * apply dict_get_In_pair in Eg. rewrite Forall_forall in Hk.
        apply (Hk _ Eg).
      * rewrite Forall_forall in IH. eapply IH, dict_get_In, Eg.
    + apply (announced_fold_packet _ _ _ _ _ Es Ea).
      * unfold new_session_for.
        destruct (flow_of py_int row) as [transport [a b]]. reflexivity.
      * unfold new_session_for.
        destruct (flow_of py_int row) as [transport [a b]].
        repeat split; constructor.
Qed.
End Announced.

(** X18: every observation stored in a session of an artifact has its
    event in the timeline: an event with the identifier of the session,
    the timestamp and frame of the observation, the kind of the
    observation and the summary made from it (the name of a DNS query,
    method, host and path of an HTTP request with an absent host or path
    read as empty, the server name of a TLS handshake). *)
Theorem observations_have_timeline_events
    (py_int : string -> option Z) (py_float : string -> option Qc)
    (sha1_hexdigest : string -> string) (cap : Z) (rows : list Row)
    (w : World.t) (now pcap_path tshark_bin : string)
    (include_sha256 : bool) :
  let a := artifact_of w now pcap_path tshark_bin include_sha256
             (read_rows py_int py_float sha1_hexdigest cap rows) in
  Forall (announced (Artifact.timeline a)) (Artifact.sessions a).
Proof.
  intros a. subst a. simpl. apply Forall_sorted. rewrite Forall_map.
  eapply Forall_impl;
    [|apply (read_rows_announced py_int py_float sha1_hexdigest cap rows)].
  intros s H.
  apply (announced_Permutation _ _ _ (sorted_perm event_lt _)) in H.
  exact H.
Qed.

(** ** Only the requested fields are read *)

(** X19: the loop body reads nothing of a row but the seventeen fields the
    dissection command asks for: two rows that agree on those fields are
    folded into any state with the same result, whatever other columns
    they carry. *)
Theorem loop_body_reads_requested_fields_only
    (py_int : string -> option Z) (py_float : string -> option Qc)
    (sha1_hexdigest : string -> string) (cap : Z)
    (st : State.t) (row row' : Row) :
  (forall name, In name fields -> get row name = get row' name) ->
  loop_body py_int py_float sha1_hexdigest cap st row
  = loop_body py_int py_float sha1_hexdigest cap st row'.
Proof.
  intros H.
  assert (H' : Forall (fun name => get row name = get row' name) fields)
    by (apply Forall_forall, H).
  unfold fields in H'.
  repeat match goal with
         | H : Forall _ (_ :: _) |- _ =>
             let E := fresh "E" in
             let T := fresh "T" in
             inversion H as [|? ? E T]; subst; clear H
         end.
  unfold loop_body, address, text.
  repeat match goal with
         | E : get row _ = get row' _ |- _ => rewrite E; clear E
         end.
  reflexivity.
Qed.

(** A row with two extra columns against the same row without them. *)
Lemma loop_body_reads_requested_fields_only_witness :
  let row := nth 0 sample_rows [] in
  let row' := (row ++ [("frame.cap_len", "60"); ("eth.src", "aa:bb")])%list in
  loop_body decimal_int decimal_float plain_digest 8 initial_state row
  = loop_body decimal_int decimal_float plain_digest 8 initial_state row'.
Proof.
  apply (loop_body_reads_requested_fields_only decimal_int decimal_float
           plain_digest 8 initial_state (nth 0 sample_rows [])
           (nth 0 sample_rows []
              ++ [("frame.cap_len", "60"); ("eth.src", "aa:bb")])%list).
  intros name Hin. unfold fields in Hin. simpl in Hin.
  repeat (destruct Hin as [<- | Hin]; [reflexivity|]).
  destruct Hin.
Defined.

(** ** Sessions only grow *)

(** [s'] continues [s]: same identity, no fewer packets, bounds at least
    as wide, and sample and observation lists that start with those of
    [s]. *)
Definition continues (s s' : Session.t) : Prop :=
  let e := Session.evidence s in
  let e' := Session.evidence s' in
  let o := Session.observations s in
  let o' := Session.observations s' in
  identity s' = identity s
  /\ Session.packet_count s <= Session.packet_count s'
  /\ (Session.first_ts s' <= Session.first_ts s)%Qc
  /\ (Session.last_ts s <= Session.last_ts s')%Qc
  /\ Evidence.first_frame e' <= Evidence.first_frame e
  /\ Evidence.last_frame e <= Evidence.last_frame e'
  /\ (exists more,
        Evidence.sample_frames e' = (Evidence.sample_frames e ++ more)%list)
  /\ (exists more,
        Observations.dns_queries o'
        = (Observations.dns_queries o ++ more)%list)
  /\ (exists more,
        Observations.http_requests o'
        = (Observations.http_requests o ++ more)%list)
  /\ (exists more,
        Observations.tls_sni o' = (Observations.tls_sni o ++ more)%list).

Lemma continues_refl s : continues s s.
Proof.
  unfold continues.
  repeat split; try apply Qcle_refl; try lia;
    exists []; rewrite app_nil_r; reflexivity.
Qed.

Lemma continues_trans s1 s2 s3 :
  continues s1 s2 -> continues s2 s3 -> continues s1 s3.
Proof.
  unfold continues.
  intros [Hi [Hp [Hf [Hl [Hff [Hlf [[m1 E1] [[m2 E2] [[m3 E3] [m4 E4]]]]]]]]]].
  intros [Hi' [Hp' [Hf' [Hl' [Hff' [Hlf' [[n1 F1] [[n2 F2] [[n3 F3] [n4 F4]]]]]]]]]].
  repeat split; try lia.
  - congruence.
  - eapply Qcle_trans; eassumption.
  - eapply Qcle_trans; eassumption.
  - exists (m1 ++ n1)%list. rewrite F1, E1, app_assoc. reflexivity.
  - exists (m2 ++ n2)%list. rewrite F2, E2, app_assoc. reflexivity.
  - exists (m3 ++ n3)%list. rewrite F3, E3, app_assoc. reflexivity.
  - exists (m4 ++ n4)%list. rewrite F4, E4, app_assoc. reflexivity.
Qed.

Lemma continues_fold_packet (py_int : string -> option Z) cap
    row frame_no ts s :
  continues s (fold_packet py_int cap row frame_no ts s).
Proof.
  unfold continues, fold_packet.
  set (s1 := count_packet cap s frame_no ts
               (_safe_int py_int (get row "frame.len"))).
  pose proof (counters_observe row frame_no ts s1) as Hc.
  pose proof (identity_observe row frame_no ts s1) as Hi.
  unfold counters in Hc. injection Hc as _ _ -> -> -> _ ->.
  rewrite Hi. subst s1. unfold count_packet, identity. simpl.
  rewrite min_int_min, max_int_max.
  split; [reflexivity|]. split; [lia|].
  split; [apply min_ts_le_l|]. split; [apply max_ts_ge_l|].
  split; [lia|]. split; [lia|].
  split.
  { destruct (_ <? cap); [eexists; reflexivity|].
    exists []. rewrite app_nil_r. reflexivity. }
  observe_cases row; simpl; repeat split;
    try (eexists; reflexivity);
    exists []; rewrite app_nil_r; reflexivity.
Qed.


(** The session of the first frame of the sample capture. *)
Definition first_sample_session : Session.t :=
  session_after decimal_int plain_digest 8 initial_state
    (nth 0 sample_rows []) 1 (Q2Qc 100).


(** ** Session keys tell flows apart *)

From Stdlib Require DecimalZ.

(** The character [c] occurs in the string. *)
Fixpoint occurs (c : ascii) (s : string) : bool :=
  match s with
  | EmptyString => false
  | String d s' => Ascii.eqb c d || occurs c s'
  end.

Lemma append_assoc (a b c : string) : (a ++ b) ++ c = a ++ (b ++ c).
Proof.
  induction a as [|x a IH]; simpl; [reflexivity|]. rewrite IH. reflexivity.
Qed.

Lemma append_cancel_l (s t t' : string) : s ++ t = s ++ t' -> t = t'.
Proof.
  induction s as [|x s IH]; simpl; [auto|]. intros [= H]. apply IH, H.
Qed.

Lemma append_cancel_last (c : ascii) (s s' : string) :
  s ++ String c "" = s' ++ String c "" -> s = s'.
Proof.
  revert s'. induction s as [|x s IH]; intros [|x' s']; simpl.
  - reflexivity.
  - intros [= _ H]. destruct s'; discriminate H.
  - intros [= _ H]. destruct s; discriminate H.
  - intros [= -> H]. f_equal. apply IH, H.
Qed.

Lemma occurs_append c a b : occurs c (a ++ b) = occurs c a || occurs c b.
Proof.
  induction a as [|x a IH]; simpl; [reflexivity|].
  rewrite IH, orb_assoc. reflexivity.
Qed.

Lemma occurs_here c s : occurs c (String c s) = true.
Proof. simpl. rewrite Ascii.eqb_refl. reflexivity. Qed.

(** A text is cut in one way only at the first occurrence of [c]. *)
Lemma cut_at_first c u : forall u' v v',
  occurs c u = false -> occurs c u' = false ->
  u ++ String c v = u' ++ String c v' -> u = u' /\ v = v'.
Proof.
  induction u as [|x u IH]; intros [|x' u'] v v'; simpl.
  - intros _ _ [= ->]. auto.
  - intros _ H [= <- _]. rewrite Ascii.eqb_refl in H. discriminate H.
  - intros H _ [= -> _]. rewrite Ascii.eqb_refl in H. discriminate H.
  - intros H H' [= -> E].
    apply orb_false_iff in H, H'.
    destruct (IH _ _ _ (proj2 H) (proj2 H') E) as [-> ->]. auto.
Qed.

(** And in one way only at the last occurrence of [c]. *)
Lemma cut_at_last c x : forall x' w w',
  occurs c w = false -> occurs c w' = false ->
  x ++ String c w = x' ++ String c w' -> x = x' /\ w = w'.
Proof.
  induction x as [|d x IH]; intros [|d' x'] w w'; simpl.
  - intros _ _ [= ->]. auto.
  - intros H _ [= _ E]. rewrite E, occurs_append, occurs_here in H.
    rewrite orb_true_r in H. discriminate H.
  - intros _ H [= _ E]. rewrite <- E, occurs_append, occurs_here in H.
    rewrite orb_true_r in H. discriminate H.
  - intros H H' [= -> E].
    destruct (IH _ _ _ H H' E) as [-> ->]. auto.
Qed.

(** Reading back the decimal of an integer gives the integer. *)
Lemma decimal_int_str_int n : decimal_int (str_int n) = Some n.
Proof.
  unfold decimal_int, str_int.
  rewrite <- (DecimalZ.of_to n) at 2.
  destruct (Z.to_int n) as [u|u].
  - destruct u; try (rewrite NilZero.isi; [reflexivity|discriminate..]).
    reflexivity.
  - destruct u; try (rewrite NilZero.isi; [reflexivity|discriminate..]).
    reflexivity.
Qed.

Lemma str_port_inj p p' : str_port p = str_port p' -> p = p'.
Proof.
  destruct p as [n|], p' as [n'|]; simpl; intros H.
  - apply (f_equal decimal_int) in H.
    rewrite !decimal_int_str_int in H. exact H.
  - apply (f_equal decimal_int) in H.
    rewrite decimal_int_str_int in H. discriminate H.
  - apply (f_equal decimal_int) in H.
    rewrite decimal_int_str_int in H. discriminate H.
  - reflexivity.
Qed.

Lemma occurs_string_of_uint c u :
  Forall (fun d => Ascii.eqb c d = false)
    ["0"; "1"; "2"; "3"; "4"; "5"; "6"; "7"; "8"; "9"]%char ->
  occurs c (NilEmpty.string_of_uint u) = false.
Proof.
  intros H.
  repeat match goal with
         | H : Forall _ (_ :: _) |- _ =>
             let E := fresh "E" in
             let T := fresh "T" in
             inversion H as [|? ? E T]; subst; clear H
         end.
  induction u; simpl; rewrite ?IHu; auto;
    match goal with
    | E : Ascii.eqb c ?d = false |- Ascii.eqb c ?d || _ = false =>
        rewrite E; reflexivity
    end.
Qed.

Lemma occurs_str_port c p :
  Forall (fun d => Ascii.eqb c d = false)
    ["0"; "1"; "2"; "3"; "4"; "5"; "6"; "7"; "8"; "9";
     "-"; "N"; "o"; "n"; "e"]%char ->
  occurs c (str_port p) = false.
Proof.
  intros H.
  assert (Hd : Forall (fun d => Ascii.eqb c d = false)
                 ["0"; "1"; "2"; "3"; "4"; "5"; "6"; "7"; "8"; "9"]%char).
  { rewrite Forall_forall in *. intros d Hin. apply H.
    simpl in *. tauto. }
  assert (Hc : forall d, In d ["-"; "N"; "o"; "n"; "e"; "0"]%char ->
                         Ascii.eqb c d = false).
  { rewrite Forall_forall in H. intros d Hin. apply H.
    simpl in *. tauto. }
  destruct p as [n|]; simpl.
  - unfold str_int, NilZero.string_of_int, NilZero.string_of_uint.
    destruct (Z.to_int n) as [u|u].
    + destruct u; try apply (occurs_string_of_uint c _ Hd).
      simpl. rewrite Hc by (simpl; tauto). reflexivity.
    + simpl. rewrite (Hc "-"%char) by (simpl; tauto).
      destruct u; try apply (occurs_string_of_uint c _ Hd).
      simpl. rewrite Hc by (simpl; tauto). reflexivity.
  - rewrite !Hc by (simpl; tauto). reflexivity.
Qed.

Lemma occurs_gt_str_port p : occurs ">" (str_port p) = false.
Proof. apply occurs_str_port. repeat constructor. Qed.

Lemma occurs_colon_str_port p : occurs ":" (str_port p) = false.
Proof. apply occurs_str_port. repeat constructor. Qed.

(** An address and a port are read back from ["{ip}:{port}"]: the port
    starts after the last colon. *)
Lemma endpoint_text_inj (a a' : Endpoint) :
  ip a ++ ":" ++ str_port (port a) = ip a' ++ ":" ++ str_port (port a') ->
  a = a'.
Proof.
  intros H. simpl in H.
  apply cut_at_last in H; try apply occurs_colon_str_port.
  destruct H as [Hi Hp]. apply str_port_inj in Hp.
  destruct a, a'. simpl in *. congruence.
Qed.

(** X21: the session key tells flows apart: two flows whose addresses
    contain no [>] character have the same session key only if they have
    the same transport and the same two endpoints, addresses and ports;
    colons inside addresses, as in IPv6, do no harm. *)
Theorem session_key_of_injective
    (t t' : Transport) (a b a' b' : Endpoint) :
  occurs ">" (ip a) = false -> occurs ">" (ip b) = false ->
  occurs ">" (ip a') = false -> occurs ">" (ip b') = false ->
  session_key_of t a b = session_key_of t' a' b' ->
  t = t' /\ a = a' /\ b = b'.
Proof.
  intros Ha Hb Ha' Hb' H.
  assert (Et : t = t') by (eapply session_key_of_transport, H).
  subst t'. split; [reflexivity|].
  unfold session_key_of in H.
  apply append_cancel_l in H. apply append_cancel_l in H.
  assert (Hcut : forall x y : Endpoint,
             ip x ++ ":" ++ str_port (port x) ++ "->" ++ ip y ++ ":"
               ++ str_port (port y)
             = ((ip x ++ ":" ++ str_port (port x)) ++ "-")
                 ++ String ">" (ip y ++ ":" ++ str_port (port y))).
  { intros x y. rewrite !append_assoc. reflexivity. }
  rewrite !Hcut in H.
  assert (Hleft : forall x : Endpoint,
             occurs ">" (ip x) = false ->
             occurs ">" ((ip x ++ ":" ++ str_port (port x)) ++ "-") = false).
  { intros x Hx. rewrite !occurs_append, Hx, occurs_gt_str_port.
    reflexivity. }
  assert (Hright : forall y : Endpoint,
             occurs ">" (ip y) = false ->
             occurs ">" (ip y ++ ":" ++ str_port (port y)) = false).
  { intros y Hy. rewrite !occurs_append, Hy, occurs_gt_str_port.
    reflexivity. }
  apply cut_at_first in H; auto.
  destruct H as [H1 H2].
  apply append_cancel_last in H1.
  split; apply endpoint_text_inj; assumption.
Qed.

(** An IPv6 flow against itself: the key is read back to its parts. *)
Lemma session_key_of_injective_witness :
  tcp = tcp
  /\ mkEndpoint "2001:db8::1" (Some 443) = mkEndpoint "2001:db8::1" (Some 443)
  /\ mkEndpoint "2001:db8::2" (Some 51000)
     = mkEndpoint "2001:db8::2" (Some 51000).
Proof.
  apply (session_key_of_injective tcp tcp
           (mkEndpoint "2001:db8::1" (Some 443))
           (mkEndpoint "2001:db8::2" (Some 51000))
           (mkEndpoint "2001:db8::1" (Some 443))
           (mkEndpoint "2001:db8::2" (Some 51000)));
    reflexivity.
Defined.

(** Without the condition the key is ambiguous: an address that holds the
    text [->] makes two different flows format to one key. *)
Example session_key_of_ambiguous :
  session_key_of tcp (mkEndpoint "x" (Some 1)) (mkEndpoint "y:2->z" (Some 3))
  = session_key_of tcp (mkEndpoint "x:1->y" (Some 2)) (mkEndpoint "z" (Some 3)).
Proof. reflexivity. Qed.
